(** * Diesel-cycle simulators: a shallow embedding and its properties

    Embeds [Diesel_Cycle_simulator_v2.py] (class [DieselCycleSimulator]) and
    the [volume] function of [Diesel_Cycle_simulator.py].

    Numbers.  Python [float]/[int] values are read as real numbers: rounding
    and overflow of binary64 are not represented, so an equality proved here
    is the exact identity that the floating-point run approximates.  What
    Python does outside ordinary real arithmetic is kept explicit:
    - [x / y] on Python numbers raises [ZeroDivisionError] when [y] is zero;
    - [x ** y] on Python numbers raises [ZeroDivisionError] for [0 ** y] with
      negative [y], and yields a complex number for a negative base with a
      fractional exponent;
    - NumPy array arithmetic never raises for these; it yields [inf] or
      [nan] elements;
    - [np.sqrt] of a negative number is [nan].
    A complex, [inf] or [nan] value ends the real-valued run with [NonReal]. *)

From Stdlib Require Import Reals Lra Lia ZArith.
From stdpp Require Import base option list gmap.

Open Scope R_scope.

(** ** Outcomes of a Python call *)

Inductive exn : Type :=
| ZeroDivisionError
| ValueError
| KeyError.

Inductive outcome (A : Type) : Type :=
| Ret (a : A)
| Raise (e : exn)
| NonReal.

Arguments Ret {A} a.
Arguments Raise {A} e.
Arguments NonReal {A}.

Definition bind {A B : Type} (m : outcome A) (k : A -> outcome B) : outcome B :=
  match m with
  | Ret a => k a
  | Raise e => Raise e
  | NonReal => NonReal
  end.

Notation "'let!' x ':=' m 'in' k" := (bind m (fun x => k))
  (at level 10, x name, m at level 100, k at level 200).

(** ** Python scalar arithmetic *)

(** [x / y] on Python numbers. *)
Definition py_div (x y : R) : outcome R :=
  if Req_dec_T y 0 then Raise ZeroDivisionError else Ret (x / y).

(** [x ** y] on Python numbers ([float.__pow__]). *)
Definition py_pow (x y : R) : outcome R :=
  if Rlt_dec 0 x then Ret (Rpower x y)
  else if Req_dec_T x 0 then
    if Rlt_dec 0 y then Ret 0
    else if Req_dec_T y 0 then Ret 1
    else Raise ZeroDivisionError
  else if Req_dec_T (frac_part y) 0 then Ret (powerRZ x (Int_part y))
  else NonReal.

(** ** NumPy element arithmetic *)

(** One element of [x / a] for an array [a]: a zero divisor gives [inf] or
    [nan], never an exception. *)
Definition np_div (x y : R) : outcome R :=
  if Req_dec_T y 0 then NonReal else Ret (x / y).

(** One element of [a ** y] for an array [a]. *)
Definition np_pow (x y : R) : outcome R :=
  if Rlt_dec 0 x then Ret (Rpower x y)
  else if Req_dec_T x 0 then
    if Rlt_dec 0 y then Ret 0
    else if Req_dec_T y 0 then Ret 1
    else NonReal
  else if Req_dec_T (frac_part y) 0 then Ret (powerRZ x (Int_part y))
  else NonReal.

(** [np.sqrt]. *)
Definition np_sqrt (x : R) : outcome R :=
  if Rlt_dec x 0 then NonReal else Ret (sqrt x).

(** Elementwise application of a fallible scalar operation, left to right. *)
Fixpoint map_outcome {A B : Type} (f : A -> outcome B) (l : list A)
  : outcome (list B) :=
  match l with
  | [] => Ret []
  | a :: l' => let! b := f a in let! bs := map_outcome f l' in Ret (b :: bs)
  end.

(** [np.linspace(start, stop, num)] with the default [endpoint=True].
    NumPy computes [delta = stop - start], [div = num - 1], then
    [arange(0, num) * (delta / div) + start] when [div > 0] and
    [arange(0, num) * delta + start] otherwise, and finally overwrites the
    last sample by [stop] when [num > 1].  A negative [num] raises
    [ValueError]. *)
Definition linspace_samples (start stop : R) (n : nat) : list R :=
  let div := (n - 1)%nat in
  let delta := stop - start in
  let y :=
    if (0 <? div)%nat
    then (fun i : nat => INR i * (delta / INR div) + start) <$> seq 0 n
    else (fun i : nat => INR i * delta + start) <$> seq 0 n in
  if (1 <? n)%nat then <[(n - 1)%nat := stop]> y else y.

Definition np_linspace (start stop : R) (num : Z) : outcome (list R) :=
  if (num <? 0)%Z then Raise ValueError
  else Ret (linspace_samples start stop (Z.to_nat num)).

(** [np.full(num, x)]; a negative [num] raises [ValueError]. *)
Definition np_full (num : Z) (x : R) : outcome (list R) :=
  if (num <? 0)%Z then Raise ValueError else Ret (replicate (Z.to_nat num) x).

(** [np.full_like(a, x)]. *)
Definition np_full_like (a : list R) (x : R) : list R :=
  replicate (length a) x.

(** ** The object-oriented simulator *)

Module DieselCycleSimulator.

(** The instance attributes set by [__init__]. *)
Record t : Type := mk {
  bore : R;
  stroke : R;
  connecting_rod_length : R;
  compression_ratio : R;
  swept_volume : R;
  clearance_volume : R;
  total_volume : R
}.

(** [__init__(self, bore, stroke, connecting_rod_length, compression_ratio)]. *)
Definition init (bore stroke connecting_rod_length compression_ratio : R)
  : outcome t :=
  let swept_volume := (PI / 4) * bore ^ 2 * stroke in
  let! clearance_volume := py_div swept_volume (compression_ratio - 1) in
  let total_volume := swept_volume + clearance_volume in
  Ret (mk bore stroke connecting_rod_length compression_ratio
          swept_volume clearance_volume total_volume).

(** [instantaneous_volume(self, crank_angle)] at a scalar angle. *)
Definition instantaneous_volume (self : t) (crank_angle : R) : outcome R :=
  let R_ := stroke self / 2 in
  let! root := np_sqrt ((connecting_rod_length self) ^ 2
                        - (R_ * sin crank_angle) ^ 2) in
  let x := R_ * cos crank_angle + root in
  let h := connecting_rod_length self + R_ - x in
  let volume := clearance_volume self + (PI / 4) * (bore self) ^ 2 * h in
  Ret volume.

(** One entry of the ['states'] dictionary: [{'p': .., 'v': .., 'T': ..}]. *)
Record state : Type := mk_state { p : R; v : R; T : R }.

(** The dictionary returned by [ideal_diesel_cycle]. *)
Record cycle : Type := mk_cycle {
  states : gmap nat state;
  gamma : R;
  cycle_compression_ratio : R
}.

(** [ideal_diesel_cycle(self, p1, T1, T3, gamma)]. *)
Definition ideal_diesel_cycle (self : t) (p1 T1 T3 gamma : R) : outcome cycle :=
  let v1 := total_volume self in
  let v2 := clearance_volume self in
  let! rg := py_pow (compression_ratio self) gamma in
  let p2 := p1 * rg in
  let! rg1 := py_pow (compression_ratio self) (gamma - 1) in
  let T2 := T1 * rg1 in
  let p3 := p2 in
  let! v3 := py_div (v2 * T3) T2 in
  let v4 := v1 in
  let! q := py_div v3 v4 in
  let! qg := py_pow q gamma in
  let p4 := p3 * qg in
  let! q' := py_div v3 v4 in
  let! qg1 := py_pow q' (gamma - 1) in
  let T4 := T3 * qg1 in
  Ret (mk_cycle
         (<[1%nat := mk_state p1 v1 T1]>
            (<[2%nat := mk_state p2 v2 T2]>
               (<[3%nat := mk_state p3 v3 T3]>
                  (<[4%nat := mk_state p4 v4 T4]> ∅))))
         gamma (compression_ratio self)).

(** [d[k]] on a dictionary: a missing key raises [KeyError]. *)
Definition getitem {A : Type} (d : gmap nat A) (k : nat) : outcome A :=
  match d !! k with
  | Some a => Ret a
  | None => Raise KeyError
  end.

(** The dictionary returned by [generate_pv_diagram]: each entry is the
    tuple [(volume array, pressure array)]. *)
Record pv_data : Type := mk_pv {
  compression : list R * list R;
  heat_addition : list R * list R;
  expansion : list R * list R;
  heat_rejection : list R * list R
}.

(** The array expression [pa * (va / v_arr) ** gamma]. *)
Definition isentrope (pa va gamma : R) (v_arr : list R) : outcome (list R) :=
  map_outcome
    (fun x => let! q := np_div va x in let! qg := np_pow q gamma in Ret (pa * qg))
    v_arr.

(** [generate_pv_diagram(self, cycle_data, n_points)]. *)
Definition generate_pv_diagram (self : t) (cycle_data : cycle) (n_points : Z)
  : outcome pv_data :=
  let states := states cycle_data in
  let gamma := gamma cycle_data in
  let! s1 := getitem states 1%nat in
  let! s2 := getitem states 2%nat in
  let! v_12 := np_linspace (v s1) (v s2) n_points in
  let! p_12 := isentrope (p s1) (v s1) gamma v_12 in
  let! s3 := getitem states 3%nat in
  let! v_23 := np_linspace (v s2) (v s3) n_points in
  let p_23 := np_full_like v_23 (p s2) in
  let! s4 := getitem states 4%nat in
  let! v_34 := np_linspace (v s3) (v s4) n_points in
  let! p_34 := isentrope (p s3) (v s3) gamma v_34 in
  let! v_41 := np_full n_points (v s4) in
  let! p_41 := np_linspace (p s4) (p s1) n_points in
  Ret (mk_pv (v_12, p_12) (v_23, p_23) (v_34, p_34) (v_41, p_41)).

(** [calculate_efficiency(self, cycle_data)]. *)
Definition calculate_efficiency (self : t) (cycle_data : cycle) : outcome R :=
  let states := states cycle_data in
  let gamma := gamma cycle_data in
  let! s3 := getitem states 3%nat in
  let! s2 := getitem states 2%nat in
  let! rho := py_div (v s3) (v s2) in
  let! rg1 := py_pow (compression_ratio self) (gamma - 1) in
  let! a := py_div 1 rg1 in
  let! rhog := py_pow rho gamma in
  let! e := py_div (a * (rhog - 1)) (gamma * (rho - 1)) in
  Ret (1 - e).

(** The four processes, in the order [plot_pv_diagram] draws them. *)
Inductive process : Type :=
| Compression
| HeatAddition
| Expansion
| HeatRejection.

(** What [plot_pv_diagram] hands to matplotlib, data only: a line per
    process ([plt.plot(v, p, ..., label=...)]), a marker with its annotation
    per state point, and the two numbers shown in the text boxes.  Styling,
    axis labels, [plt.figure] and [plt.show] carry no data and are left
    out. *)
Inductive artist : Type :=
| Line (proc : process) (volumes pressures : list R)
| Marker (i : nat) (volume pressure : R)
| EfficiencyText (efficiency : R)
| CutOffText (rho : R).

(** [plot_pv_diagram(self, cycle_data)]: the artists in drawing order and
    the returned efficiency.  [generate_pv_diagram] is called with its
    default [n_points=100].  When a step raises, the figure drawn so far is
    not represented. *)
Definition plot_pv_diagram (self : t) (cycle_data : cycle)
  : outcome (list artist * R) :=
  let! pv_data := generate_pv_diagram self cycle_data 100 in
  let '(v_comp, p_comp) := compression pv_data in
  let '(v_heat_add, p_heat_add) := heat_addition pv_data in
  let '(v_exp, p_exp) := expansion pv_data in
  let '(v_heat_rej, p_heat_rej) := heat_rejection pv_data in
  let lines := [Line Compression v_comp p_comp;
                Line HeatAddition v_heat_add p_heat_add;
                Line Expansion v_exp p_exp;
                Line HeatRejection v_heat_rej p_heat_rej] in
  let states := states cycle_data in
  let! markers :=
    map_outcome (fun i => let! si := getitem states i in
                          Ret (Marker i (v si) (p si)))
                [1; 2; 3; 4]%nat in
  let! efficiency := calculate_efficiency self cycle_data in
  let! s3 := getitem states 3%nat in
  let! s2 := getitem states 2%nat in
  let! rho := py_div (v s3) (v s2) in
  Ret (lines ++ markers ++ [EfficiencyText efficiency; CutOffText rho],
       efficiency).

End DieselCycleSimulator.

(** ** The procedural simulator *)

Module Procedural.

(** [volume(d, s, l, r, theta)] at a scalar angle. *)
Definition volume (d s l r theta : R) : outcome R :=
  let Vs := (PI / 4) * d ^ 2 * s in
  let! Vc := py_div Vs (r - 1) in
  let! term1 := py_div 1 (r - 1) in
  let! a := py_div 2 s in
  let term2 := 1 + a - cos theta in
  let! b := py_div 2 s in
  let! root := np_sqrt (b ^ 2 + (sin theta) ^ 2) in
  let term3 := root in
  let V := Vs * (term1 + (1 / 2) * (term2 - term3)) in
  Ret V.

(** [volume(d, s, l, r, theta)] when [theta] is an array: the scalar
    divisions are the Python ones, cosine, sine and square root act
    elementwise. *)
Definition volume_array (d s l r : R) (theta : list R) : outcome (list R) :=
  let Vs := (PI / 4) * d ^ 2 * s in
  let! Vc := py_div Vs (r - 1) in
  let! term1 := py_div 1 (r - 1) in
  let! a := py_div 2 s in
  let term2 := (fun th => 1 + a - cos th) <$> theta in
  let! b := py_div 2 s in
  let! term3 := map_outcome (fun th => np_sqrt (b ^ 2 + (sin th) ^ 2)) theta in
  let V := zip_with (fun t2 t3 => Vs * (term1 + (1 / 2) * (t2 - t3)))
                    term2 term3 in
  Ret V.

(** The values the script computes at module level before the search
    (lines 51-68), with the parameters it fixes as constants taken as
    arguments. *)
Record points : Type := mk_points {
  Vs : R; Vc : R;
  v1 : R; v2 : R; v4 : R;
  p2 : R; t2 : R;
  p3 : R; v3 : R;
  p4 : R
}.

Definition state_points (d s r p1 t1 gamma t3 : R) : outcome points :=
  let Vs := (PI / 4) * d ^ 2 * s in
  let! Vc := py_div Vs (r - 1) in
  let v1 := Vs + Vc in
  let v2 := Vc in
  let v4 := v1 in
  let! rg := py_pow r gamma in
  let p2 := p1 * rg in
  let! rg1 := py_pow r (gamma - 1) in
  let t2 := t1 * rg1 in
  let p3 := p2 in
  let! v3 := py_div (v2 * t3) t2 in
  let! q := py_div v3 v4 in
  let! qg := py_pow q gamma in
  let p4 := p3 * qg in
  Ret (mk_points Vs Vc v1 v2 v4 p2 t2 p3 v3 p4).

(** The search loop of lines 71-77, started from [theta]:
    [while theta < np.pi: theta = theta + 0.001; v_theta = volume(...);
     if 0 < (v_theta - v3) < 0.001: break].
    [fuel] bounds the number of iterations; [None] means it ran out. *)
Fixpoint search (fuel : nat) (d s l r v3 theta : R) : option (outcome R) :=
  match fuel with
  | O => None
  | S fuel' =>
      if Rlt_dec theta PI then
        let theta' := theta + 1 / 1000 in
        match volume d s l r theta' with
        | Ret v_theta =>
            if Rlt_dec 0 (v_theta - v3) then
              if Rlt_dec (v_theta - v3) (1 / 1000) then Some (Ret theta')
              else search fuel' d s l r v3 theta'
            else search fuel' d s l r v3 theta'
        | Raise e => Some (Raise e)
        | NonReal => Some NonReal
        end
      else Some (Ret theta)
  end.

(** The array expression [(pa * va**gamma) / V**gamma] of lines 84 and 88. *)
Definition isentrope (pa va gamma : R) (V : list R) : outcome (list R) :=
  let! vg := py_pow va gamma in
  let! Vg := map_outcome (fun x => np_pow x gamma) V in
  map_outcome (fun xg => np_div (pa * vg) xg) Vg.

(** The compression curve of lines 83-84. *)
Definition compression_curve (d s l r p1 v1 gamma : R)
  : outcome (list R * list R) :=
  let! angles := np_linspace 0 PI 180 in
  let! V_comp := volume_array d s l r angles in
  let! P_comp := isentrope p1 v1 gamma V_comp in
  Ret (V_comp, P_comp).

(** The expansion curve of lines 87-88, for the angle [theta] the search
    found. *)
Definition expansion_curve (d s l r p3 v3 gamma theta : R)
  : outcome (list R * list R) :=
  let! angles := np_linspace PI theta 180 in
  let! V_exp := volume_array d s l r angles in
  let! P_exp := isentrope p3 v3 gamma V_exp in
  Ret (V_exp, P_exp).

End Procedural.

(** ** Vocabulary of the statements *)

Import DieselCycleSimulator.

(** The geometry of the data model: positive dimensions, ratio above one. *)
Definition valid_geometry (b s l r : R) : Prop :=
  0 < b /\ 0 < s /\ 0 < l /\ 1 < r.

(** The preconditions of a cycle evaluation. *)
Definition valid_conditions (p1 T1 T3 g : R) : Prop :=
  0 < p1 /\ 0 < T1 /\ T1 < T3 /\ 1 < g.

(** The value [__init__] stores in [self.swept_volume]. *)
Definition swept (b s : R) : R := (PI / 4) * b ^ 2 * s.

(** The instance [__init__] leaves behind when its division succeeds. *)
Definition built (b s l r : R) : t :=
  mk b s l r (swept b s) (swept b s / (r - 1))
     (swept b s + swept b s / (r - 1)).

(** The pin position [x] that [instantaneous_volume] computes for crank
    radius [Rc] and rod length [L], with the square root taken in the reals. *)
Definition pin (Rc L theta : R) : R :=
  Rc * cos theta + sqrt (L ^ 2 - (Rc * sin theta) ^ 2).

(** The [i]-th of [n] equally spaced samples from [start] to [stop], end
    points included, as section 4.3 of the specification describes the
    sampled coordinate of a curve. *)
Definition spec_linear_sample (start stop : R) (n : Z) (i : nat) : R :=
  start + INR i * (stop - start) / (IZR n - 1).

(** The dictionary [ideal_diesel_cycle] returns when none of its divisions
    or powers leaves the positive reals: the same assignments, each [**]
    read as [Rpower] and each [/] as real division. *)
Definition evaluated (self : t) (p1 T1 T3 g : R) : cycle :=
  let v1 := total_volume self in
  let v2 := clearance_volume self in
  let p2 := p1 * Rpower (compression_ratio self) g in
  let T2 := T1 * Rpower (compression_ratio self) (g - 1) in
  let p3 := p2 in
  let v3 := v2 * T3 / T2 in
  let v4 := v1 in
  let p4 := p3 * Rpower (v3 / v4) g in
  let T4 := T3 * Rpower (v3 / v4) (g - 1) in
  mk_cycle
    (<[1%nat := mk_state p1 v1 T1]>
       (<[2%nat := mk_state p2 v2 T2]>
          (<[3%nat := mk_state p3 v3 T3]>
             (<[4%nat := mk_state p4 v4 T4]> ∅))))
    g (compression_ratio self).

(** The dictionary [generate_pv_diagram] returns for [n] samples on the
    states [s1 .. s4] when every sampled volume is positive: the same array
    expressions, elementwise. *)
Definition sampled (s1 s2 s3 s4 : state) (g : R) (n : nat) : pv_data :=
  let v_12 := linspace_samples (v s1) (v s2) n in
  let p_12 := (fun x => p s1 * Rpower (v s1 / x) g) <$> v_12 in
  let v_23 := linspace_samples (v s2) (v s3) n in
  let p_23 := replicate (length v_23) (p s2) in
  let v_34 := linspace_samples (v s3) (v s4) n in
  let p_34 := (fun x => p s3 * Rpower (v s3 / x) g) <$> v_34 in
  let v_41 := replicate n (v s4) in
  let p_41 := linspace_samples (p s4) (p s1) n in
  mk_pv (v_12, p_12) (v_23, p_23) (v_34, p_34) (v_41, p_41).

(** The number [volume] returns at a scalar angle when neither of its
    divisions raises. *)
Definition crank_volume (d s r theta : R) : R :=
  (PI / 4) * d ^ 2 * s
  * (1 / (r - 1)
     + (1 / 2) * (1 + 2 / s - cos theta
                  - sqrt ((2 / s) ^ 2 + (sin theta) ^ 2))).

(** The test that ends the search loop of the procedural script at angle
    [theta]: [volume] returns there, and [0 < v_theta - v3 < 0.001]. *)
Definition breaks_at (d s l r v3 theta : R) : Prop :=
  exists v_theta,
    Procedural.volume d s l r theta = Ret v_theta /\
    0 < v_theta - v3 /\ v_theta - v3 < 1 / 1000.

(** ** Basic facts about the arithmetic primitives *)

Lemma py_div_ok (x y : R) : y <> 0 -> py_div x y = Ret (x / y).
Proof. intros Hy. unfold py_div. destruct (Req_dec_T y 0); [lra | reflexivity]. Qed.

Lemma py_div_zero (x : R) : py_div x 0 = Raise ZeroDivisionError.
Proof. unfold py_div. destruct (Req_dec_T 0 0); [reflexivity | lra]. Qed.

Lemma py_pow_pos (x y : R) : 0 < x -> py_pow x y = Ret (Rpower x y).
Proof. intros Hx. unfold py_pow. destruct (Rlt_dec 0 x); [reflexivity | lra]. Qed.

Lemma np_div_ok (x y : R) : y <> 0 -> np_div x y = Ret (x / y).
Proof. intros Hy. unfold np_div. destruct (Req_dec_T y 0); [lra | reflexivity]. Qed.

Lemma np_pow_pos (x y : R) : 0 < x -> np_pow x y = Ret (Rpower x y).
Proof. intros Hx. unfold np_pow. destruct (Rlt_dec 0 x); [reflexivity | lra]. Qed.

Lemma np_sqrt_ok (x : R) : 0 <= x -> np_sqrt x = Ret (sqrt x).
Proof. intros Hx. unfold np_sqrt. destruct (Rlt_dec x 0); [lra | reflexivity]. Qed.

Lemma Rpower_pos (x y : R) : 0 < Rpower x y.
Proof. unfold Rpower. apply exp_pos. Qed.

Lemma Rpower_one_base (y : R) : Rpower 1 y = 1.
Proof. unfold Rpower. rewrite ln_1, Rmult_0_r. apply exp_0. Qed.

Lemma Rdiv_pos (x y : R) : 0 < x -> 0 < y -> 0 < x / y.
Proof. intros Hx Hy. apply Rmult_lt_0_compat; [lra | apply Rinv_0_lt_compat; lra]. Qed.

(** ** Geometry *)

Lemma swept_pos (b s : R) : 0 < b -> 0 < s -> 0 < swept b s.
Proof.
  intros Hb Hs. unfold swept. pose proof PI_RGT_0 as Hpi.
  assert (0 < b ^ 2) by nra. assert (0 < PI / 4) by lra. 
  apply Rmult_lt_0_compat; [apply Rmult_lt_0_compat|]; assumption.
Qed.

Lemma init_total (b s l r : R) :
  init b s l r =
  if Req_dec_T r 1 then Raise ZeroDivisionError else Ret (built b s l r).
Proof.
  unfold init, py_div.
  destruct (Req_dec_T (r - 1) 0), (Req_dec_T r 1); try lra; reflexivity.
Qed.

Lemma init_valid (b s l r : R) :
  valid_geometry b s l r -> init b s l r = Ret (built b s l r).
Proof.
  intros (_ & _ & _ & Hr). rewrite init_total.
  destruct (Req_dec_T r 1); [lra | reflexivity].
Qed.

Lemma built_volumes_pos (b s l r : R) :
  valid_geometry b s l r ->
  0 < clearance_volume (built b s l r) /\
  clearance_volume (built b s l r) < total_volume (built b s l r).
Proof.
  intros (Hb & Hs & _ & Hr). simpl.
  pose proof (swept_pos b s Hb Hs) as Hsw.
  assert (0 < swept b s / (r - 1)) by (apply Rdiv_pos; lra).
  lra.
Qed.


(** ** State points *)

Lemma ideal_diesel_cycle_evaluated (self : t) (p1 T1 T3 g : R) :
  0 < compression_ratio self ->
  0 < clearance_volume self ->
  0 < total_volume self ->
  0 < T1 -> 0 < T3 ->
  ideal_diesel_cycle self p1 T1 T3 g = Ret (evaluated self p1 T1 T3 g).
Proof.
  intros Hr Hc Ht HT1 HT3.
  unfold ideal_diesel_cycle, evaluated.
  rewrite !py_pow_pos by assumption. cbn [bind].
  pose proof (Rpower_pos (compression_ratio self) (g - 1)) as Hpw.
  assert (HT2 : 0 < T1 * Rpower (compression_ratio self) (g - 1))
    by (apply Rmult_lt_0_compat; assumption).
  rewrite py_div_ok by lra. cbn [bind].
  assert (Hv3 : 0 < clearance_volume self * T3
                    / (T1 * Rpower (compression_ratio self) (g - 1))).
  { apply Rdiv_pos; [apply Rmult_lt_0_compat|]; assumption. }
  rewrite py_div_ok by lra. cbn [bind].
  rewrite !py_pow_pos by (apply Rdiv_pos; assumption). cbn [bind].
  reflexivity.
Qed.

Lemma valid_cycle (b s l r p1 T1 T3 g : R) :
  valid_geometry b s l r -> 0 < T1 -> 0 < T3 ->
  ideal_diesel_cycle (built b s l r) p1 T1 T3 g
  = Ret (evaluated (built b s l r) p1 T1 T3 g).
Proof.
  intros Hg HT1 HT3. pose proof (built_volumes_pos b s l r Hg) as [Hc Ht].
  destruct Hg as (_ & _ & _ & Hr).
  apply ideal_diesel_cycle_evaluated; simpl in *; lra.
Qed.

(** C1.  For positive bore, stroke and rod length, compression ratio above
    one, and [p1 > 0], [T1 > 0], [T3 > T1], [gamma > 1], construction
    succeeds and [ideal_diesel_cycle] returns a dictionary whose four states
    are [v1 = total_volume], [v2 = clearance_volume], [p2 = p1 * r^gamma],
    [T2 = T1 * r^(gamma-1)], [p3 = p2], [v3 = v2 * T3 / T2], [v4 = v1],
    [p4 = p3 * (v3/v4)^gamma], [T4 = T3 * (v3/v4)^(gamma-1)], together with
    [gamma] and the compression ratio; no other state key is present. *)
Theorem ideal_diesel_cycle_state_points (b s l r p1 T1 T3 g : R) :
  valid_geometry b s l r ->
  valid_conditions p1 T1 T3 g ->
  exists self c,
    init b s l r = Ret self /\
    ideal_diesel_cycle self p1 T1 T3 g = Ret c /\
    let v1 := total_volume self in
    let v2 := clearance_volume self in
    let p2 := p1 * Rpower r g in
    let T2 := T1 * Rpower r (g - 1) in
    let p3 := p2 in
    let v3 := v2 * T3 / T2 in
    let v4 := v1 in
    let p4 := p3 * Rpower (v3 / v4) g in
    let T4 := T3 * Rpower (v3 / v4) (g - 1) in
    states c !! 1%nat = Some (mk_state p1 v1 T1) /\
    states c !! 2%nat = Some (mk_state p2 v2 T2) /\
    states c !! 3%nat = Some (mk_state p3 v3 T3) /\
    states c !! 4%nat = Some (mk_state p4 v4 T4) /\
    (forall k : nat, (k = 0 \/ 4 < k)%nat -> states c !! k = None) /\
    gamma c = g /\
    cycle_compression_ratio c = r.
Proof.
  intros Hg (Hp1 & HT1 & HT3 & Hgam).
  exists (built b s l r), (evaluated (built b s l r) p1 T1 T3 g).
  split; [apply init_valid; assumption|].
  split; [apply valid_cycle; [assumption | lra | lra]|].
  cbn zeta. unfold evaluated. cbn [states gamma cycle_compression_ratio].
  repeat split.
  - intros k Hk. simpl.
    rewrite !lookup_insert_ne by lia. apply lookup_empty.
Qed.

Lemma ideal_diesel_cycle_state_points_witness :
  valid_geometry 1 1 1 2 /\ valid_conditions 1 1 3 2 /\
  exists self c,
    init 1 1 1 2 = Ret self /\
    ideal_diesel_cycle self 1 1 3 2 = Ret c /\
    states c !! 2%nat
    = Some (mk_state (1 * Rpower 2 2) (clearance_volume self)
                     (1 * Rpower 2 (2 - 1))).
Proof.
  assert (Hg : valid_geometry 1 1 1 2) by (unfold valid_geometry; lra).
  assert (Hc : valid_conditions 1 1 3 2) by (unfold valid_conditions; lra).
  split; [exact Hg|]. split; [exact Hc|].
  destruct (ideal_diesel_cycle_state_points 1 1 1 2 1 1 3 2 Hg Hc)
    as (self & c & Hi & Hcyc & _ & H2 & _).
  exists self, c. repeat split; assumption.
Defined.

(** ** Construction and the volume invariant *)

Lemma built_ratio (b s l r : R) :
  swept b s <> 0 -> r <> 1 ->
  total_volume (built b s l r) / clearance_volume (built b s l r) = r.
Proof. intros Hs Hr. simpl. field. split; lra. Qed.

(** C8.  For positive bore, stroke and rod length and compression ratio above
    one, the constructed instance satisfies
    [total_volume / clearance_volume = compression_ratio]: exactly over the
    reals, hence within the relative tolerance [1e-9].  The instance is a
    value the methods only read, so the relation stays true of it. *)
Theorem volume_ratio_is_compression_ratio (b s l r : R) :
  valid_geometry b s l r ->
  exists self,
    init b s l r = Ret self /\
    compression_ratio self = r /\
    total_volume self / clearance_volume self = compression_ratio self /\
    Rabs (total_volume self / clearance_volume self - compression_ratio self)
    <= 1 / 1000000000 * Rabs (compression_ratio self).
Proof.
  intros Hg. exists (built b s l r).
  split; [apply init_valid; assumption|].
  split; [reflexivity|].
  destruct Hg as (Hb & Hs & _ & Hr).
  pose proof (swept_pos b s Hb Hs) as Hsw.
  assert (Heq : total_volume (built b s l r) / clearance_volume (built b s l r)
                = compression_ratio (built b s l r))
    by (apply (built_ratio b s l r); lra).
  split; [exact Heq|].
  rewrite Heq, Rminus_diag, Rabs_R0.
  apply Rmult_le_pos; [lra | apply Rabs_pos].
Qed.

Lemma volume_ratio_is_compression_ratio_witness :
  valid_geometry (1 / 10) (1 / 10) (3 / 20) 18 /\
  exists self,
    init (1 / 10) (1 / 10) (3 / 20) 18 = Ret self /\
    total_volume self / clearance_volume self = 18.
Proof.
  assert (Hg : valid_geometry (1 / 10) (1 / 10) (3 / 20) 18)
    by (unfold valid_geometry; lra).
  split; [exact Hg|].
  destruct (volume_ratio_is_compression_ratio _ _ _ _ Hg)
    as (self & Hi & Hr & Heq & _).
  exists self. split; [exact Hi|]. rewrite Heq. exact Hr.
Defined.

(** C5 fails as stated: a rod shorter than the crank radius, a negative bore
    and a compression ratio below one are each accepted silently. *)
Lemma init_accepts_inconsistent_geometry :
  init 1 1 (1 / 4) 2 = Ret (built 1 1 (1 / 4) 2) /\
  init (-1) 1 1 2 = Ret (built (-1) 1 1 2) /\
  init 1 0 1 2 = Ret (built 1 0 1 2) /\
  init 1 1 1 (1 / 2) = Ret (built 1 1 1 (1 / 2)).
Proof.
  repeat split; rewrite init_total;
    match goal with |- context [Req_dec_T ?x 1] => destruct (Req_dec_T x 1) end;
    solve [lra | reflexivity].
Qed.

(** C5, amended.  [__init__] validates nothing.  Whatever the bore, stroke
    and rod length, it stores the four arguments and the three derived
    volumes, unless the compression ratio is exactly one, where the division
    for the clearance volume raises [ZeroDivisionError]. *)
Theorem init_only_rejects_unit_ratio (b s l r : R) :
  init b s l r =
  if Req_dec_T r 1 then Raise ZeroDivisionError
  else Ret (mk b s l r
               ((PI / 4) * b ^ 2 * s)
               ((PI / 4) * b ^ 2 * s / (r - 1))
               ((PI / 4) * b ^ 2 * s + (PI / 4) * b ^ 2 * s / (r - 1))).
Proof. apply init_total. Qed.

(** ** The procedural variant *)

(** C10.  [volume(d, s, l, r, theta)] does not depend on the rod length [l]:
    any two rod lengths give the same outcome, value or exception. *)
Theorem volume_ignores_rod_length (d s l l' r theta : R) :
  Procedural.volume d s l r theta = Procedural.volume d s l' r theta.
Proof. reflexivity. Qed.

(** ** Cut-off ratio and efficiency *)

Section Evaluated.
Variables (self : t) (p1 T1 T3 g : R).

Local Abbreviation r := (compression_ratio self).
Local Abbreviation T2 := (T1 * Rpower r (g - 1)).
Local Abbreviation v2 := (clearance_volume self).
Local Abbreviation v3 := (v2 * T3 / T2).

Lemma evaluated_state_2 :
  states (evaluated self p1 T1 T3 g) !! 2%nat
  = Some (mk_state (p1 * Rpower r g) v2 T2).
Proof. reflexivity. Qed.

Lemma evaluated_state_3 :
  states (evaluated self p1 T1 T3 g) !! 3%nat
  = Some (mk_state (p1 * Rpower r g) v3 T3).
Proof. reflexivity. Qed.

Hypothesis Hr : 0 < r.
Hypothesis Hv2 : 0 < v2.
Hypothesis HT1 : 0 < T1.
Hypothesis HT3 : 0 < T3.

Lemma T2_pos : 0 < T2.
Proof. apply Rmult_lt_0_compat; [assumption | apply Rpower_pos]. Qed.

Lemma cutoff_is_temperature_ratio : v3 / v2 = T3 / T2.
Proof.
  pose proof (Rpower_pos r (g - 1)) as Hpw. field. repeat split; lra.
Qed.

Lemma cutoff_pos : 0 < v3 / v2.
Proof. rewrite cutoff_is_temperature_ratio. apply Rdiv_pos; [assumption | apply T2_pos]. Qed.

Lemma cutoff_le_1 : T3 <= T2 -> v3 / v2 <= 1.
Proof.
  intros Hle. rewrite cutoff_is_temperature_ratio. pose proof T2_pos as H2.
  apply (Rmult_le_reg_r T2); [assumption|].
  unfold Rdiv. rewrite Rmult_assoc, Rinv_l by lra. lra.
Qed.

(** [calculate_efficiency] on the dictionary of a successful evaluation:
    every step before the last division succeeds, and that division
    raises exactly when its divisor [gamma * (rho - 1)] is zero. *)
Lemma calculate_efficiency_evaluated :
  calculate_efficiency self (evaluated self p1 T1 T3 g) =
  let rho := v3 / v2 in
  if Req_dec_T (g * (rho - 1)) 0 then Raise ZeroDivisionError
  else Ret (1 - (1 / Rpower r (g - 1)) * (Rpower rho g - 1)
                / (g * (rho - 1))).
Proof.
  unfold calculate_efficiency.
  change (getitem (states (evaluated self p1 T1 T3 g)) 3%nat)
    with (Ret (mk_state (p1 * Rpower r g) v3 T3)).
  change (getitem (states (evaluated self p1 T1 T3 g)) 2%nat)
    with (Ret (mk_state (p1 * Rpower r g) v2 T2)).
  cbn [bind v gamma evaluated].
  rewrite (py_div_ok v3 v2) by lra. cbn [bind].
  fold r. rewrite (py_pow_pos r) by assumption. cbn [bind].
  pose proof (Rpower_pos r (g - 1)) as Hpw.
  rewrite py_div_ok by lra. cbn [bind].
  rewrite py_pow_pos by apply cutoff_pos. cbn [bind].
  unfold py_div. cbn zeta.
  destruct (Req_dec_T (g * (v3 / v2 - 1)) 0); reflexivity.
Qed.
End Evaluated.

Lemma built_efficiency (b s l r p1 T1 T3 g : R) :
  valid_geometry b s l r -> 0 < T1 -> 0 < T3 ->
  calculate_efficiency (built b s l r) (evaluated (built b s l r) p1 T1 T3 g) =
  let rho := swept b s / (r - 1) * T3 / (T1 * Rpower r (g - 1))
             / (swept b s / (r - 1)) in
  if Req_dec_T (g * (rho - 1)) 0 then Raise ZeroDivisionError
  else Ret (1 - (1 / Rpower r (g - 1)) * (Rpower rho g - 1) / (g * (rho - 1))).
Proof.
  intros Hg HT1 HT3. pose proof (built_volumes_pos b s l r Hg) as [Hc _].
  destruct Hg as (_ & _ & _ & Hr).
  apply (calculate_efficiency_evaluated (built b s l r) p1 T1 T3 g);
    simpl in *; lra.
Qed.

Lemma built_cutoff (b s l r T1 T3 g : R) :
  valid_geometry b s l r -> 0 < T1 ->
  swept b s / (r - 1) * T3 / (T1 * Rpower r (g - 1)) / (swept b s / (r - 1))
  = T3 / (T1 * Rpower r (g - 1)).
Proof.
  intros Hg HT1. pose proof (built_volumes_pos b s l r Hg) as [Hc _].
  apply (cutoff_is_temperature_ratio (built b s l r) T1 T3 g); assumption.
Qed.

Lemma Rpower_2_1 : Rpower 2 (2 - 1) = 2.
Proof. replace (2 - 1) with 1 by lra. apply Rpower_1. lra. Qed.




(** C7 fails as stated: with [r = 2], [gamma = 2], [T1 = 1] and [T3 = 2] the
    preconditions hold, [T2 = T3], the cut-off ratio is one, and
    [calculate_efficiency] raises [ZeroDivisionError]. *)
Lemma calculate_efficiency_unit_cutoff_raises :
  valid_geometry 1 1 1 2 /\ valid_conditions 1 1 2 2 /\
  init 1 1 1 2 = Ret (built 1 1 1 2) /\
  ideal_diesel_cycle (built 1 1 1 2) 1 1 2 2
  = Ret (evaluated (built 1 1 1 2) 1 1 2 2) /\
  calculate_efficiency (built 1 1 1 2) (evaluated (built 1 1 1 2) 1 1 2 2)
  = Raise ZeroDivisionError.
Proof.
  assert (Hg : valid_geometry 1 1 1 2) by (unfold valid_geometry; lra).
  split; [exact Hg|]. split; [unfold valid_conditions; lra|].
  split; [apply init_valid; exact Hg|].
  split; [apply valid_cycle; [exact Hg | lra | lra]|].
  rewrite built_efficiency by (try exact Hg; lra). cbn zeta.
  rewrite (built_cutoff 1 1 1 2 1 2 2 Hg) by lra.
  rewrite Rpower_2_1.
  destruct (Req_dec_T _ 0) as [Hz|Hz]; [reflexivity | exfalso; apply Hz; field].
Qed.

(** C7, amended.  [calculate_efficiency] has no limiting formula and no
    epsilon guard: it evaluates the closed formula as written.  On a cycle
    from a valid geometry and valid conditions it returns the formula's value
    when the cut-off ratio [rho] differs from one, and raises
    [ZeroDivisionError] from the division by [gamma * (rho - 1)] when [rho]
    is exactly one. *)
Theorem calculate_efficiency_no_limit_branch (b s l r p1 T1 T3 g : R) :
  valid_geometry b s l r ->
  valid_conditions p1 T1 T3 g ->
  exists self c s2 s3,
    init b s l r = Ret self /\
    ideal_diesel_cycle self p1 T1 T3 g = Ret c /\
    states c !! 2%nat = Some s2 /\
    states c !! 3%nat = Some s3 /\
    let rho := v s3 / v s2 in
    calculate_efficiency self c =
    if Req_dec_T rho 1 then Raise ZeroDivisionError
    else Ret (1 - (1 / Rpower r (g - 1)) * (Rpower rho g - 1)
                  / (g * (rho - 1))).
Proof.
  intros Hg (Hp1 & HT1 & HT3 & Hgam).
  assert (H3 : 0 < T3) by lra.
  eexists (built b s l r), (evaluated (built b s l r) p1 T1 T3 g), _, _.
  split; [apply init_valid; assumption|].
  split; [apply valid_cycle; assumption|].
  split; [apply evaluated_state_2|].
  split; [apply evaluated_state_3|].
  cbn zeta. cbn [v compression_ratio clearance_volume built].
  rewrite built_efficiency by assumption. cbn zeta.
  destruct (Req_dec_T (g * _) 0) as [Hz|Hz], (Req_dec_T _ 1) as [Ho|Ho];
    try reflexivity; exfalso.
  - apply Rmult_integral in Hz. destruct Hz as [Hz|Hz]; lra.
  - apply Hz. rewrite Ho. ring.
Qed.

Lemma calculate_efficiency_no_limit_branch_witness :
  valid_geometry 1 1 1 2 /\ valid_conditions 1 1 3 2 /\
  exists self c,
    init 1 1 1 2 = Ret self /\
    ideal_diesel_cycle self 1 1 3 2 = Ret c /\
    exists out, calculate_efficiency self c = out.
Proof.
  assert (Hg : valid_geometry 1 1 1 2) by (unfold valid_geometry; lra).
  assert (Hc : valid_conditions 1 1 3 2) by (unfold valid_conditions; lra).
  split; [exact Hg|]. split; [exact Hc|].
  destruct (calculate_efficiency_no_limit_branch 1 1 1 2 1 1 3 2 Hg Hc)
    as (self & c & s2 & s3 & Hi & Hcyc & _ & _ & Heff).
  exists self, c. split; [exact Hi|]. split; [exact Hcyc|].
  eexists. exact Heff.
Defined.

(** ** Operating conditions are not checked *)

(** C4 fails as stated: with [r = 2], [gamma = 2], [T1 = 1] and [T3 = 3/2]
    the compression temperature is [T2 = 2 >= T3], yet the evaluation
    returns a dictionary, and its cut-off ratio [v3/v2] is at most one. *)
Lemma ideal_diesel_cycle_accepts_cold_combustion :
  exists c s2 s3,
    init 1 1 1 2 = Ret (built 1 1 1 2) /\
    ideal_diesel_cycle (built 1 1 1 2) 1 1 (3 / 2) 2 = Ret c /\
    states c !! 2%nat = Some s2 /\
    states c !! 3%nat = Some s3 /\
    T s3 <= T s2 /\
    v s3 / v s2 <= 1.
Proof.
  assert (Hg : valid_geometry 1 1 1 2) by (unfold valid_geometry; lra).
  eexists (evaluated (built 1 1 1 2) 1 1 (3 / 2) 2), _, _.
  split; [apply init_valid; exact Hg|].
  split; [apply valid_cycle; [exact Hg | lra | lra]|].
  split; [apply evaluated_state_2|].
  split; [apply evaluated_state_3|].
  cbn [T v compression_ratio clearance_volume built].
  rewrite (built_cutoff 1 1 1 2 1 (3 / 2) 2 Hg) by lra.
  rewrite Rpower_2_1. split; lra.
Qed.

(** C4, amended.  [ideal_diesel_cycle] never compares [T3] with [T2] and
    has no error path for it.  On a valid geometry, for every [T1 > 0] and
    [T3 > 0] (any [p1] and [gamma]) it returns a dictionary whose cut-off
    ratio [v3/v2] is the positive number [T3/T2]; when [T3 <= T2] that
    ratio is at most one and is returned all the same. *)
Theorem ideal_diesel_cycle_unchecked_cutoff (b s l r p1 T1 T3 g : R) :
  valid_geometry b s l r ->
  0 < T1 -> 0 < T3 ->
  exists self c s2 s3,
    init b s l r = Ret self /\
    ideal_diesel_cycle self p1 T1 T3 g = Ret c /\
    states c !! 2%nat = Some s2 /\
    states c !! 3%nat = Some s3 /\
    T s2 = T1 * Rpower r (g - 1) /\
    T s3 = T3 /\
    v s3 / v s2 = T3 / T s2 /\
    0 < v s3 / v s2 /\
    (T3 <= T s2 -> v s3 / v s2 <= 1).
Proof.
  intros Hg HT1 HT3.
  pose proof (built_volumes_pos b s l r Hg) as [Hc _].
  assert (Hr : 0 < r) by (destruct Hg as (_ & _ & _ & Hr); lra).
  eexists (built b s l r), (evaluated (built b s l r) p1 T1 T3 g), _, _.
  split; [apply init_valid; assumption|].
  split; [apply valid_cycle; assumption|].
  split; [apply evaluated_state_2|].
  split; [apply evaluated_state_3|].
  cbn [T v compression_ratio clearance_volume built].
  split; [reflexivity|]. split; [reflexivity|].
  split; [apply (built_cutoff b s l r T1 T3 g); assumption|].
  split.
  - apply (cutoff_pos (built b s l r) T1 T3 g); assumption.
  - apply (cutoff_le_1 (built b s l r) T1 T3 g); assumption.
Qed.

Lemma ideal_diesel_cycle_unchecked_cutoff_witness :
  valid_geometry 1 1 1 2 /\ 0 < 1 /\ 0 < 3 / 2 /\
  exists self c s2 s3,
    init 1 1 1 2 = Ret self /\
    ideal_diesel_cycle self 1 1 (3 / 2) 2 = Ret c /\
    states c !! 2%nat = Some s2 /\
    states c !! 3%nat = Some s3 /\
    T s3 <= T s2 /\
    v s3 / v s2 <= 1.
Proof.
  assert (Hg : valid_geometry 1 1 1 2) by (unfold valid_geometry; lra).
  assert (H1 : 0 < 1) by lra.
  assert (H3 : 0 < 3 / 2) by lra.
  split; [exact Hg|]. split; [exact H1|]. split; [exact H3|].
  destruct (ideal_diesel_cycle_unchecked_cutoff 1 1 1 2 1 1 (3 / 2) 2 Hg H1 H3)
    as (self & c & s2 & s3 & Hi & Hcyc & L2 & L3 & HT2 & HT3 & _ & _ & Hle).
  assert (Hcold : 3 / 2 <= T s2) by (rewrite HT2, Rpower_2_1; lra).
  exists self, c, s2, s3. do 4 (split; [assumption|]).
  split; [rewrite HT3; exact Hcold | exact (Hle Hcold)].
Defined.

(** ** Slider-crank kinematics *)

Section SliderCrank.
Variables (Rc L : R).
Hypothesis HRc : 0 <= Rc.
Hypothesis HL : Rc <= L.

Lemma radicand_eq (theta : R) :
  L ^ 2 - (Rc * sin theta) ^ 2 = (L ^ 2 - Rc ^ 2) + (Rc * cos theta) ^ 2.
Proof.
  pose proof (sin2_cos2 theta) as H. unfold Rsqr in H.
  replace ((Rc * sin theta) ^ 2) with (Rc ^ 2 * (1 - cos theta * cos theta)).
  - ring.
  - rewrite <- H. ring.
Qed.

Lemma radicand_nonneg (theta : R) : 0 <= L ^ 2 - (Rc * sin theta) ^ 2.
Proof.
  rewrite radicand_eq.
  assert (0 <= L ^ 2 - Rc ^ 2) by nra.
  assert (0 <= (Rc * cos theta) ^ 2) by apply pow2_ge_0.
  lra.
Qed.

(** The pin moves towards the crank centre as the cosine decreases. *)
Lemma pin_monotone_in_cos (a b : R) :
  cos b <= cos a -> pin Rc L b <= pin Rc L a.
Proof.
  intros Hcos. unfold pin.
  set (sa := sqrt (L ^ 2 - (Rc * sin a) ^ 2)).
  set (sb := sqrt (L ^ 2 - (Rc * sin b) ^ 2)).
  assert (Hsa0 : 0 <= sa) by apply sqrt_pos.
  assert (Hsb0 : 0 <= sb) by apply sqrt_pos.
  assert (Hsa : sa * sa = (L ^ 2 - Rc ^ 2) + (Rc * cos a) ^ 2).
  { unfold sa. rewrite sqrt_sqrt by apply radicand_nonneg. apply radicand_eq. }
  assert (Hsb : sb * sb = (L ^ 2 - Rc ^ 2) + (Rc * cos b) ^ 2).
  { unfold sb. rewrite sqrt_sqrt by apply radicand_nonneg. apply radicand_eq. }
  assert (HD : 0 <= L ^ 2 - Rc ^ 2) by nra.
  (* each root dominates the crank projection on either side *)
  assert (Hua : 0 <= sa + Rc * cos a) by nra.
  assert (Hwa : 0 <= sa - Rc * cos a) by nra.
  assert (Hub : 0 <= sb + Rc * cos b) by nra.
  assert (Hwb : 0 <= sb - Rc * cos b) by nra.
  destruct (Rle_lt_dec (Rc * cos b + sb) (Rc * cos a + sa)) as [Hle|Hgt];
    [exact Hle|exfalso].
  assert (Hw : sa - Rc * cos a < sb - Rc * cos b) by nra.
  assert (Hprod : (sa + Rc * cos a) * (sa - Rc * cos a)
                  = (sb + Rc * cos b) * (sb - Rc * cos b)) by nra.
  assert (Hlt : (sa + Rc * cos a) * (sa - Rc * cos a)
                < (sb + Rc * cos b) * (sb - Rc * cos b)).
  { apply Rle_lt_trans with ((sa + Rc * cos a) * (sb - Rc * cos b)).
    - apply Rmult_le_compat_l; lra.
    - apply Rmult_lt_compat_r; lra. }
  lra.
Qed.

Lemma pin_at_tdc : 0 <= L -> pin Rc L 0 = Rc + L.
Proof.
  intros HL0. unfold pin. rewrite sin_0, cos_0.
  replace (L ^ 2 - (Rc * 0) ^ 2) with (L ^ 2) by ring.
  rewrite sqrt_pow2 by assumption. ring.
Qed.

Lemma pin_at_bdc : 0 <= L -> pin Rc L PI = L - Rc.
Proof.
  intros HL0. unfold pin. rewrite sin_PI, cos_PI.
  replace (L ^ 2 - (Rc * 0) ^ 2) with (L ^ 2) by ring.
  rewrite sqrt_pow2 by assumption. ring.
Qed.
End SliderCrank.


Lemma instantaneous_volume_value (self : t) (theta : R) :
  0 <= stroke self / 2 <= connecting_rod_length self ->
  instantaneous_volume self theta =
  Ret (clearance_volume self
       + (PI / 4) * (bore self) ^ 2
         * (connecting_rod_length self + stroke self / 2
            - (stroke self / 2 * cos theta
               + sqrt ((connecting_rod_length self) ^ 2
                       - (stroke self / 2 * sin theta) ^ 2)))).
Proof.
  intros [H0 HL]. unfold instantaneous_volume.
  rewrite np_sqrt_ok by (apply radicand_nonneg; assumption).
  reflexivity.
Qed.

(** C9.  On a valid geometry whose rod is longer than the crank radius
    ([rod_length > stroke/2]), [instantaneous_volume] is defined on every
    angle, equals [clearance_volume] at [0] and [total_volume] at [PI]
    (exactly, over the reals), and is non-decreasing on [[0, PI]]. *)
Theorem instantaneous_volume_monotone (b s l r : R) :
  valid_geometry b s l r ->
  s / 2 < l ->
  exists self,
    init b s l r = Ret self /\
    instantaneous_volume self 0 = Ret (clearance_volume self) /\
    instantaneous_volume self PI = Ret (total_volume self) /\
    forall theta1 theta2 : R,
      0 <= theta1 -> theta1 <= theta2 -> theta2 <= PI ->
      exists V1 V2,
        instantaneous_volume self theta1 = Ret V1 /\
        instantaneous_volume self theta2 = Ret V2 /\
        V1 <= V2.
Proof.
  intros Hg Hrod. exists (built b s l r).
  split; [apply init_valid; assumption|].
  destruct Hg as (Hb & Hs & Hl & Hr).
  assert (Hgeo : 0 <= stroke (built b s l r) / 2
                 <= connecting_rod_length (built b s l r)) by (simpl; lra).
  assert (HR0 : 0 <= s / 2) by lra.
  assert (HRL : s / 2 <= l) by lra.
  assert (Hl0 : 0 <= l) by lra.
  split; [|split].
  - rewrite instantaneous_volume_value by exact Hgeo.
    cbn [stroke connecting_rod_length bore clearance_volume built].
    fold (pin (s / 2) l 0). rewrite (pin_at_tdc (s / 2) l Hl0). f_equal. ring.
  - rewrite instantaneous_volume_value by exact Hgeo.
    cbn [stroke connecting_rod_length bore clearance_volume total_volume built].
    fold (pin (s / 2) l PI). rewrite (pin_at_bdc (s / 2) l Hl0).
    f_equal. unfold swept. field. lra.
  - intros theta1 theta2 H1 H12 H2.
    rewrite !instantaneous_volume_value by exact Hgeo.
    cbn [stroke connecting_rod_length bore clearance_volume built].
    eexists _, _. split; [reflexivity|]. split; [reflexivity|].
    assert (Hcos : cos theta2 <= cos theta1) by (apply cos_decr_1; lra).
    pose proof (pin_monotone_in_cos (s / 2) l HR0 HRL theta1 theta2 Hcos) as Hpin.
    unfold pin in Hpin.
    assert (Hk : 0 <= PI / 4 * b ^ 2).
    { pose proof PI_RGT_0. apply Rmult_le_pos; [lra | apply pow2_ge_0]. }
    apply Rplus_le_compat_l, Rmult_le_compat_l; [exact Hk | lra].
Qed.

Lemma instantaneous_volume_monotone_witness :
  valid_geometry (1 / 10) (1 / 10) (3 / 20) 18 /\ 1 / 10 / 2 < 3 / 20 /\
  exists self,
    init (1 / 10) (1 / 10) (3 / 20) 18 = Ret self /\
    instantaneous_volume self 0 = Ret (clearance_volume self) /\
    instantaneous_volume self PI = Ret (total_volume self) /\
    exists V1 V2,
      instantaneous_volume self 0 = Ret V1 /\
      instantaneous_volume self PI = Ret V2 /\
      V1 <= V2.
Proof.
  assert (Hg : valid_geometry (1 / 10) (1 / 10) (3 / 20) 18)
    by (unfold valid_geometry; lra).
  assert (Hrod : 1 / 10 / 2 < 3 / 20) by lra.
  split; [exact Hg|]. split; [exact Hrod|].
  destruct (instantaneous_volume_monotone _ _ _ _ Hg Hrod)
    as (self & Hi & H0 & Hpi & Hmono).
  exists self. split; [exact Hi|]. split; [exact H0|]. split; [exact Hpi|].
  pose proof PI_RGT_0 as Hp.
  apply (Hmono 0 PI); lra.
Defined.

(** ** Sampling *)

Lemma length_linspace_samples (a b : R) (n : nat) :
  length (linspace_samples a b n) = n.
Proof.
  unfold linspace_samples.
  destruct (1 <? n)%nat, (0 <? n - 1)%nat;
    rewrite ?length_insert, length_fmap, length_seq; reflexivity.
Qed.

Lemma INR_pred (n : nat) : (1 <= n)%nat -> INR (n - 1) = INR n - 1.
Proof. intros Hn. rewrite minus_INR by assumption. simpl. reflexivity. Qed.

Lemma lookup_linspace_samples (a b : R) (n i : nat) :
  (2 <= n)%nat -> (i < n)%nat ->
  linspace_samples a b n !! i = Some (a + INR i * (b - a) / (INR n - 1)).
Proof.
  intros Hn Hi. unfold linspace_samples.
  assert (H1 : (1 <? n)%nat = true) by (apply Nat.ltb_lt; lia).
  assert (H0 : (0 <? n - 1)%nat = true) by (apply Nat.ltb_lt; lia).
  rewrite H1, H0.
  assert (Hd : INR n - 1 <> 0).
  { rewrite <- INR_pred by lia. apply not_0_INR. lia. }
  destruct (decide (i = n - 1)%nat) as [->|Hne].
  - rewrite list_lookup_insert_eq
      by (rewrite length_fmap, length_seq; lia).
    f_equal. rewrite INR_pred by lia. field. exact Hd.
  - rewrite list_lookup_insert_ne by congruence.
    rewrite list_lookup_fmap, lookup_seq_lt by assumption. simpl.
    f_equal. rewrite INR_pred by lia. field. exact Hd.
Qed.

Lemma linspace_samples_0 (a b : R) : linspace_samples a b 0 = [].
Proof. reflexivity. Qed.

Lemma linspace_samples_1 (a b : R) : linspace_samples a b 1 = [a].
Proof. unfold linspace_samples. simpl. f_equal. ring. Qed.

Lemma linspace_samples_pos (a b : R) (n : nat) :
  0 < a -> 0 < b -> Forall (fun x => 0 < x) (linspace_samples a b n).
Proof.
  intros Ha Hb.
  destruct n as [|[|n]].
  - rewrite linspace_samples_0. constructor.
  - rewrite linspace_samples_1. repeat constructor. assumption.
  - assert (Hm : (2 <= S (S n))%nat) by lia.
    generalize dependent (S (S n)). clear n. intros m Hm.
    apply Forall_lookup. intros i x Hx.
    assert (Hi : (i < m)%nat).
    { apply lookup_lt_Some in Hx. rewrite length_linspace_samples in Hx. exact Hx. }
    rewrite lookup_linspace_samples in Hx by lia.
    assert (Hd : 0 < INR m - 1).
    { rewrite <- INR_pred by lia. apply lt_0_INR. lia. }
    assert (Hi' : INR i <= INR m - 1).
    { rewrite <- INR_pred by lia. apply le_INR. lia. }
    assert (Hi0 : 0 <= INR i) by apply pos_INR.
    set (d := INR m - 1) in *.
    assert (Hx' : x = (a * (d - INR i) + b * INR i) / d).
    { injection Hx as <-. field. lra. }
    rewrite Hx'. apply Rdiv_pos; [|exact Hd].
    destruct (Req_dec_T (INR i) 0) as [Hz|Hz]; nra.
Qed.

Lemma isentrope_positive (pa va g : R) (v_arr : list R) :
  0 < va -> Forall (fun x => 0 < x) v_arr ->
  isentrope pa va g v_arr = Ret ((fun x => pa * Rpower (va / x) g) <$> v_arr).
Proof.
  intros Hva Hall. unfold isentrope.
  induction Hall as [|x xs Hx _ IH]; [reflexivity|].
  cbn [map_outcome]. rewrite np_div_ok by lra. cbn [bind].
  rewrite np_pow_pos by (apply Rdiv_pos; assumption). cbn [bind].
  rewrite IH. reflexivity.
Qed.

(** ** Process curves *)

Lemma getitem_Some {A : Type} (d : gmap nat A) (k : nat) (a : A) :
  d !! k = Some a -> getitem d k = Ret a.
Proof. intros H. unfold getitem. rewrite H. reflexivity. Qed.

Lemma generate_pv_diagram_sampled (self : t) (c : cycle) (s1 s2 s3 s4 : state)
      (n : Z) :
  states c !! 1%nat = Some s1 -> states c !! 2%nat = Some s2 ->
  states c !! 3%nat = Some s3 -> states c !! 4%nat = Some s4 ->
  0 < v s1 -> 0 < v s2 -> 0 < v s3 -> 0 < v s4 ->
  (0 <= n)%Z ->
  generate_pv_diagram self c n
  = Ret (sampled s1 s2 s3 s4 (gamma c) (Z.to_nat n)).
Proof.
  intros L1 L2 L3 L4 H1 H2 H3 H4 Hn.
  unfold generate_pv_diagram, np_linspace, np_full, np_full_like.
  rewrite (getitem_Some _ _ _ L1), (getitem_Some _ _ _ L2),
    (getitem_Some _ _ _ L3), (getitem_Some _ _ _ L4).
  assert (Hneg : (n <? 0)%Z = false) by (apply Z.ltb_ge; exact Hn).
  rewrite Hneg. cbn [bind].
  rewrite !isentrope_positive
    by (try assumption; apply linspace_samples_pos; assumption).
  reflexivity.
Qed.

Lemma generate_pv_diagram_negative (self : t) (c : cycle) (s1 s2 : state)
      (n : Z) :
  states c !! 1%nat = Some s1 -> states c !! 2%nat = Some s2 ->
  (n < 0)%Z ->
  generate_pv_diagram self c n = Raise ValueError.
Proof.
  intros L1 L2 Hn. unfold generate_pv_diagram, np_linspace.
  rewrite (getitem_Some _ _ _ L1), (getitem_Some _ _ _ L2).
  assert (Hneg : (n <? 0)%Z = true) by (apply Z.ltb_lt; exact Hn).
  rewrite Hneg. reflexivity.
Qed.

Lemma evaluated_state_1 (self : t) (p1 T1 T3 g : R) :
  states (evaluated self p1 T1 T3 g) !! 1%nat
  = Some (mk_state p1 (total_volume self) T1).
Proof. reflexivity. Qed.

Lemma evaluated_state_4 (self : t) (p1 T1 T3 g : R) :
  states (evaluated self p1 T1 T3 g) !! 4%nat
  = Some (mk_state
            (p1 * Rpower (compression_ratio self) g
             * Rpower (clearance_volume self * T3
                       / (T1 * Rpower (compression_ratio self) (g - 1))
                       / total_volume self) g)
            (total_volume self)
            (T3 * Rpower (clearance_volume self * T3
                          / (T1 * Rpower (compression_ratio self) (g - 1))
                          / total_volume self) (g - 1))).
Proof. reflexivity. Qed.

Lemma lookup_spec_sample (a b : R) (n : Z) (i : nat) :
  (2 <= n)%Z -> (i < Z.to_nat n)%nat ->
  linspace_samples a b (Z.to_nat n) !! i = Some (spec_linear_sample a b n i).
Proof.
  intros Hn Hi. rewrite lookup_linspace_samples by lia.
  unfold spec_linear_sample.
  rewrite (INR_IZR_INZ (Z.to_nat n)), Z2Nat.id by lia. reflexivity.
Qed.

Lemma spec_sample_first (a b : R) (n : Z) : spec_linear_sample a b n 0 = a.
Proof. unfold spec_linear_sample. simpl. unfold Rdiv. ring. Qed.

Lemma spec_sample_last (a b : R) (n : Z) :
  (2 <= n)%Z -> spec_linear_sample a b n (Z.to_nat n - 1) = b.
Proof.
  intros Hn. unfold spec_linear_sample.
  rewrite INR_pred, INR_IZR_INZ, Z2Nat.id by lia.
  assert (IZR n - 1 <> 0).
  { apply IZR_le in Hn. lra. }
  field. assumption.
Qed.

(** C3.  For a cycle evaluated on a valid geometry under valid conditions
    and every [n_points >= 2], [generate_pv_diagram] returns four curves,
    each a pair of sequences of length [n_points]: compression samples the
    volume linearly from [v1] down to [v2] with pressure [p1 * (v1/v)^gamma];
    heat addition samples it linearly from [v2] to [v3] at pressure [p2];
    expansion samples it linearly from [v3] to [v4] with pressure
    [p3 * (v3/v)^gamma]; heat rejection keeps volume [v4] and samples the
    pressure linearly from [p4] to [p1].  The expansion curve starts at
    [(v3, p3)] and ends at [(v4, p4)]. *)
Theorem generate_pv_diagram_curves (b s l r p1 T1 T3 g : R) (n : Z) :
  valid_geometry b s l r ->
  valid_conditions p1 T1 T3 g ->
  (2 <= n)%Z ->
  exists self c s1 s2 s3 s4 d,
    init b s l r = Ret self /\
    ideal_diesel_cycle self p1 T1 T3 g = Ret c /\
    states c !! 1%nat = Some s1 /\ states c !! 2%nat = Some s2 /\
    states c !! 3%nat = Some s3 /\ states c !! 4%nat = Some s4 /\
    generate_pv_diagram self c n = Ret d /\
    (length (compression d).1 = Z.to_nat n /\
     length (compression d).2 = Z.to_nat n /\
     length (heat_addition d).1 = Z.to_nat n /\
     length (heat_addition d).2 = Z.to_nat n /\
     length (expansion d).1 = Z.to_nat n /\
     length (expansion d).2 = Z.to_nat n /\
     length (heat_rejection d).1 = Z.to_nat n /\
     length (heat_rejection d).2 = Z.to_nat n) /\
    (forall i : nat, (i < Z.to_nat n)%nat ->
       let v12 := spec_linear_sample (v s1) (v s2) n i in
       let v34 := spec_linear_sample (v s3) (v s4) n i in
       (compression d).1 !! i = Some v12 /\
       (compression d).2 !! i = Some (p s1 * Rpower (v s1 / v12) (gamma c)) /\
       (heat_addition d).1 !! i = Some (spec_linear_sample (v s2) (v s3) n i) /\
       (heat_addition d).2 !! i = Some (p s2) /\
       (expansion d).1 !! i = Some v34 /\
       (expansion d).2 !! i = Some (p s3 * Rpower (v s3 / v34) (gamma c)) /\
       (heat_rejection d).1 !! i = Some (v s4) /\
       (heat_rejection d).2 !! i
       = Some (spec_linear_sample (p s4) (p s1) n i)) /\
    v s2 < v s1 /\
    (compression d).1 !! 0%nat = Some (v s1) /\
    (compression d).1 !! (Z.to_nat n - 1)%nat = Some (v s2) /\
    (expansion d).1 !! 0%nat = Some (v s3) /\
    (expansion d).2 !! 0%nat = Some (p s3) /\
    (expansion d).1 !! (Z.to_nat n - 1)%nat = Some (v s4) /\
    (expansion d).2 !! (Z.to_nat n - 1)%nat = Some (p s4).
Proof.
  intros Hg (Hp1 & HT1 & HT3 & Hgam) Hn.
  assert (H3 : 0 < T3) by lra.
  pose proof (built_volumes_pos b s l r Hg) as [Hc Ht].
  assert (Hr : 0 < r) by (destruct Hg as (_ & _ & _ & Hr); lra).
  set (self := built b s l r) in *.
  set (c := evaluated self p1 T1 T3 g).
  pose proof (evaluated_state_1 self p1 T1 T3 g) as L1.
  pose proof (evaluated_state_2 self p1 T1 T3 g) as L2.
  pose proof (evaluated_state_3 self p1 T1 T3 g) as L3.
  pose proof (evaluated_state_4 self p1 T1 T3 g) as L4.
  fold c in L1, L2, L3, L4.
  match type of L1 with _ = Some ?x => set (s1 := x) in * end.
  match type of L2 with _ = Some ?x => set (s2 := x) in * end.
  match type of L3 with _ = Some ?x => set (s3 := x) in * end.
  match type of L4 with _ = Some ?x => set (s4 := x) in * end.
  assert (Hv1 : 0 < v s1) by (unfold s1; cbn [v]; lra).
  assert (Hv2 : 0 < v s2) by (unfold s2; cbn [v]; lra).
  assert (Hv3 : 0 < v s3).
  { unfold s3; cbn [v]. apply Rdiv_pos; [apply Rmult_lt_0_compat; assumption|].
    apply (T2_pos self T1 g); assumption. }
  assert (Hv4 : 0 < v s4) by (unfold s4; cbn [v]; lra).
  exists self, c, s1, s2, s3, s4, (sampled s1 s2 s3 s4 (gamma c) (Z.to_nat n)).
  split; [apply init_valid; assumption|].
  split; [apply valid_cycle; assumption|].
  do 4 (split; [assumption|]).
  split; [apply (generate_pv_diagram_sampled self c s1 s2 s3 s4);
          (assumption || lia)|].
  assert (Hfirst : (0 < Z.to_nat n)%nat) by lia.
  assert (Hlast : (Z.to_nat n - 1 < Z.to_nat n)%nat) by lia.
  unfold sampled. cbn [compression heat_addition expansion heat_rejection fst snd].
  split.
  { rewrite !length_fmap, !length_replicate, !length_linspace_samples.
    repeat split. }
  split.
  { intros i Hi. cbn zeta.
    rewrite !list_lookup_fmap, !lookup_spec_sample by assumption.
    rewrite length_linspace_samples.
    rewrite !lookup_replicate_2 by assumption.
    repeat split. }
  split; [unfold s1, s2; cbn [v]; lra|].
  rewrite !list_lookup_fmap, !lookup_spec_sample by assumption.
  rewrite !spec_sample_first, !spec_sample_last by assumption.
  repeat split; cbn [fmap option_fmap option_map]; f_equal.
  - unfold Rdiv at 1. rewrite Rinv_r by lra. rewrite Rpower_one_base. ring.
Qed.

Lemma generate_pv_diagram_curves_witness :
  valid_geometry 1 1 1 2 /\ valid_conditions 1 1 3 2 /\ (2 <= 3)%Z /\
  exists self c d,
    init 1 1 1 2 = Ret self /\
    ideal_diesel_cycle self 1 1 3 2 = Ret c /\
    generate_pv_diagram self c 3 = Ret d /\
    length (expansion d).1 = 3%nat /\
    length (expansion d).2 = 3%nat.
Proof.
  assert (Hg : valid_geometry 1 1 1 2) by (unfold valid_geometry; lra).
  assert (Hc : valid_conditions 1 1 3 2) by (unfold valid_conditions; lra).
  assert (Hn : (2 <= 3)%Z) by lia.
  split; [exact Hg|]. split; [exact Hc|]. split; [exact Hn|].
  destruct (generate_pv_diagram_curves 1 1 1 2 1 1 3 2 3 Hg Hc Hn)
    as (self & c & s1 & s2 & s3 & s4 & d & Hi & Hcyc & _ & _ & _ & _ & Hd
        & (_ & _ & _ & _ & Hl1 & Hl2 & _) & _).
  exists self, c, d. repeat split; assumption.
Defined.

(** ** Fewer than two samples *)

Lemma sampled_0 (s1 s2 s3 s4 : state) (g : R) :
  sampled s1 s2 s3 s4 g 0 = mk_pv ([], []) ([], []) ([], []) ([], []).
Proof. reflexivity. Qed.

Lemma sampled_1 (s1 s2 s3 s4 : state) (g : R) :
  v s1 <> 0 -> v s3 <> 0 ->
  sampled s1 s2 s3 s4 g 1
  = mk_pv ([v s1], [p s1]) ([v s2], [p s2]) ([v s3], [p s3]) ([v s4], [p s4]).
Proof.
  intros H1 H3. unfold sampled. rewrite !linspace_samples_1.
  cbn [fmap list_fmap length replicate].
  unfold Rdiv. rewrite !Rinv_r by assumption. rewrite !Rpower_one_base, !Rmult_1_r.
  reflexivity.
Qed.

Lemma valid_states_pos (b s l r p1 T1 T3 g : R) :
  valid_geometry b s l r -> 0 < T1 -> 0 < T3 ->
  exists s1 s2 s3 s4,
    let c := evaluated (built b s l r) p1 T1 T3 g in
    (states c !! 1%nat = Some s1 /\ states c !! 2%nat = Some s2 /\
     states c !! 3%nat = Some s3 /\ states c !! 4%nat = Some s4) /\
    (0 < v s1 /\ 0 < v s2 /\ 0 < v s3 /\ 0 < v s4).
Proof.
  intros Hg HT1 HT3.
  pose proof (built_volumes_pos b s l r Hg) as [Hc Ht].
  assert (Hr : 0 < r) by (destruct Hg as (_ & _ & _ & Hr); lra).
  eexists _, _, _, _. cbn zeta. split.
  - split; [apply evaluated_state_1|]. split; [apply evaluated_state_2|].
    split; [apply evaluated_state_3 | apply evaluated_state_4].
  - cbn [v]. split; [lra|]. split; [lra|]. split; [|lra].
    apply Rdiv_pos; [apply Rmult_lt_0_compat; assumption|].
    apply (T2_pos (built b s l r) T1 g); assumption.
Qed.

(** C6 fails as stated: on the cycle of a valid geometry under valid
    conditions, [n_points = 1] and [n_points = 0] both return curve data,
    one sample per sequence and none, respectively. *)
Lemma generate_pv_diagram_accepts_one_point :
  valid_geometry 1 1 1 2 /\ valid_conditions 1 1 3 2 /\
  exists c d1 d0,
    ideal_diesel_cycle (built 1 1 1 2) 1 1 3 2 = Ret c /\
    generate_pv_diagram (built 1 1 1 2) c 1 = Ret d1 /\
    length (compression d1).1 = 1%nat /\
    length (compression d1).2 = 1%nat /\
    generate_pv_diagram (built 1 1 1 2) c 0 = Ret d0 /\
    compression d0 = ([], []).
Proof.
  assert (Hg : valid_geometry 1 1 1 2) by (unfold valid_geometry; lra).
  split; [exact Hg|]. split; [unfold valid_conditions; lra|].
  destruct (valid_states_pos 1 1 1 2 1 1 3 2 Hg) as
    (s1 & s2 & s3 & s4 & (L1 & L2 & L3 & L4) & (H1 & H2 & H3 & H4)); try lra.
  eexists _, _, _.
  split; [apply valid_cycle; [exact Hg | lra | lra]|].
  split; [apply (generate_pv_diagram_sampled _ _ s1 s2 s3 s4);
          (assumption || lia)|].
  change (Z.to_nat 1) with 1%nat. rewrite sampled_1 by lra.
  split; [reflexivity|]. split; [reflexivity|].
  split; [apply (generate_pv_diagram_sampled _ _ s1 s2 s3 s4);
          (assumption || lia)|].
  reflexivity.
Qed.

(** C6, amended.  [generate_pv_diagram] has no check on [n_points] of its
    own.  On a valid cycle, a negative [n_points] fails with the
    [ValueError] that [np.linspace] raises; [n_points = 0] returns four
    curves of empty sequences; [n_points = 1] returns four one-sample curves
    holding the start state of each process, [(v1, p1)], [(v2, p2)],
    [(v3, p3)] and [(v4, p4)]. *)
Theorem generate_pv_diagram_below_two (b s l r p1 T1 T3 g : R) (n : Z) :
  valid_geometry b s l r ->
  valid_conditions p1 T1 T3 g ->
  (n < 2)%Z ->
  exists self c s1 s2 s3 s4,
    init b s l r = Ret self /\
    ideal_diesel_cycle self p1 T1 T3 g = Ret c /\
    states c !! 1%nat = Some s1 /\ states c !! 2%nat = Some s2 /\
    states c !! 3%nat = Some s3 /\ states c !! 4%nat = Some s4 /\
    generate_pv_diagram self c n =
    if (n <? 0)%Z then Raise ValueError
    else if (n =? 0)%Z then Ret (mk_pv ([], []) ([], []) ([], []) ([], []))
    else Ret (mk_pv ([v s1], [p s1]) ([v s2], [p s2])
                    ([v s3], [p s3]) ([v s4], [p s4])).
Proof.
  intros Hg (Hp1 & HT1 & HT3 & Hgam) Hn.
  assert (H3 : 0 < T3) by lra.
  destruct (valid_states_pos b s l r p1 T1 T3 g Hg HT1 H3) as
    (s1 & s2 & s3 & s4 & (L1 & L2 & L3 & L4) & (H1 & H2 & H3' & H4)).
  exists (built b s l r), (evaluated (built b s l r) p1 T1 T3 g), s1, s2, s3, s4.
  split; [apply init_valid; assumption|].
  split; [apply valid_cycle; assumption|].
  do 4 (split; [assumption|]).
  destruct (n <? 0)%Z eqn:Hneg.
  - apply Z.ltb_lt in Hneg.
    apply (generate_pv_diagram_negative _ _ s1 s2); assumption.
  - apply Z.ltb_ge in Hneg.
    rewrite (generate_pv_diagram_sampled _ _ s1 s2 s3 s4) by assumption.
    destruct (n =? 0)%Z eqn:H0.
    + apply Z.eqb_eq in H0. subst n. reflexivity.
    + apply Z.eqb_neq in H0. assert (n = 1%Z) as -> by lia.
      change (Z.to_nat 1) with 1%nat. rewrite sampled_1 by lra. reflexivity.
Qed.

Lemma generate_pv_diagram_below_two_witness :
  valid_geometry 1 1 1 2 /\ valid_conditions 1 1 3 2 /\ (1 < 2)%Z /\
  exists self c s1 s3,
    init 1 1 1 2 = Ret self /\
    ideal_diesel_cycle self 1 1 3 2 = Ret c /\
    states c !! 1%nat = Some s1 /\ states c !! 3%nat = Some s3 /\
    exists d, generate_pv_diagram self c 1 = Ret d /\
              compression d = ([v s1], [p s1]) /\
              expansion d = ([v s3], [p s3]).
Proof.
  assert (Hg : valid_geometry 1 1 1 2) by (unfold valid_geometry; lra).
  assert (Hc : valid_conditions 1 1 3 2) by (unfold valid_conditions; lra).
  assert (Hn : (1 < 2)%Z) by lia.
  split; [exact Hg|]. split; [exact Hc|]. split; [exact Hn|].
  destruct (generate_pv_diagram_below_two 1 1 1 2 1 1 3 2 1 Hg Hc Hn)
    as (self & c & s1 & s2 & s3 & s4 & Hi & Hcyc & L1 & _ & L3 & _ & Hd).
  exists self, c, s1, s3. do 4 (split; [assumption|]).
  eexists. split; [exact Hd|]. split; reflexivity.
Defined.

(** ** Power inequalities *)




Lemma Rpower_Rinv_base (x y : R) : 0 < x -> Rpower (/ x) y = / Rpower x y.
Proof.
  intros Hx. unfold Rpower. rewrite ln_Rinv by assumption.
  replace (y * - ln x) with (- (y * ln x)) by ring. apply exp_Ropp.
Qed.

Lemma Rpower_split (x g : R) : 0 < x -> Rpower x g = Rpower x (g - 1) * x.
Proof.
  intros Hx. rewrite <- (Rpower_1 x Hx) at 3. rewrite <- Rpower_plus.
  f_equal. ring.
Qed.

Lemma Rpower_gt_1 (x y : R) : 1 < x -> 0 < y -> 1 < Rpower x y.
Proof.
  intros Hx Hy. rewrite <- (Rpower_O x) by lra. apply Rpower_lt; assumption.
Qed.





(** ** Bounds on the efficiency *)

Lemma built_efficiency_value (b s l r p1 T1 T3 g : R) :
  valid_geometry b s l r -> valid_conditions p1 T1 T3 g ->
  T3 <> T1 * Rpower r (g - 1) ->
  let rho := T3 / (T1 * Rpower r (g - 1)) in
  0 < rho /\ rho <> 1 /\
  calculate_efficiency (built b s l r) (evaluated (built b s l r) p1 T1 T3 g)
  = Ret (1 - (1 / Rpower r (g - 1)) * (Rpower rho g - 1) / (g * (rho - 1))).
Proof.
  intros Hg (Hp1 & HT1 & HT3 & Hgam) Hne. cbn zeta.
  pose proof (Rpower_pos r (g - 1)) as Hpw.
  assert (HT2 : 0 < T1 * Rpower r (g - 1)) by (apply Rmult_lt_0_compat; lra).
  assert (Hrho : 0 < T3 / (T1 * Rpower r (g - 1))) by (apply Rdiv_pos; lra).
  assert (Hrho1 : T3 / (T1 * Rpower r (g - 1)) <> 1).
  { intros Heq. apply Hne.
    apply (Rmult_eq_compat_r (T1 * Rpower r (g - 1))) in Heq.
    unfold Rdiv in Heq. rewrite Rmult_assoc, Rinv_l in Heq by lra. lra. }
  split; [exact Hrho|]. split; [exact Hrho1|].
  rewrite built_efficiency by (assumption || lra). cbn zeta.
  rewrite (built_cutoff b s l r T1 T3 g Hg HT1).
  destruct (Req_dec_T _ 0) as [Hz|Hz]; [|reflexivity].
  exfalso. apply Rmult_integral in Hz. destruct Hz as [Hz|Hz]; lra.
Qed.


Lemma Rpower_2_2 : Rpower 2 2 = 4.
Proof. rewrite (Rpower_split 2 2) by lra. rewrite Rpower_2_1. lra. Qed.




(** ** Physical consistency of the state points *)

Section StatePoints.
Variables (b s l r p1 T1 T3 g : R).
Hypothesis Hg : valid_geometry b s l r.
Hypothesis HT1 : 0 < T1.
Hypothesis HT3 : 0 < T3.

Local Abbreviation self := (built b s l r).
Local Abbreviation vc := (swept b s / (r - 1)).
Local Abbreviation vt := (swept b s + swept b s / (r - 1)).
Local Abbreviation T2 := (T1 * Rpower r (g - 1)).
Local Abbreviation q := (vc * T3 / T2 / vt).

Lemma total_is_ratio_times_clearance : vt = r * vc.
Proof. destruct Hg as (_ & _ & _ & Hr). field. lra. Qed.

Lemma expansion_ratio_pos : 0 < q.
Proof.
  pose proof (built_volumes_pos b s l r Hg) as [Hc Ht]. simpl in Hc, Ht.
  pose proof (Rpower_pos r (g - 1)) as Hpw.
  apply Rdiv_pos; [apply Rdiv_pos; [|]; nra | lra].
Qed.

Lemma expansion_ratio_value : q = T3 / T2 / r.
Proof.
  pose proof (built_volumes_pos b s l r Hg) as [Hc Ht]. simpl in Hc, Ht.
  pose proof (Rpower_pos r (g - 1)) as Hpw.
  destruct Hg as (_ & _ & _ & Hr).
  rewrite total_is_ratio_times_clearance. field. repeat split; lra.
Qed.
End StatePoints.

(** At every state point of an evaluated cycle [p * v / T] has the same
    value: the four points describe one fixed amount of ideal gas. *)
Theorem state_points_obey_ideal_gas_law (b s l r p1 T1 T3 g : R) :
  valid_geometry b s l r ->
  valid_conditions p1 T1 T3 g ->
  exists self c s1 s2 s3 s4,
    init b s l r = Ret self /\
    ideal_diesel_cycle self p1 T1 T3 g = Ret c /\
    states c !! 1%nat = Some s1 /\ states c !! 2%nat = Some s2 /\
    states c !! 3%nat = Some s3 /\ states c !! 4%nat = Some s4 /\
    p s2 * v s2 / T s2 = p s1 * v s1 / T s1 /\
    p s3 * v s3 / T s3 = p s1 * v s1 / T s1 /\
    p s4 * v s4 / T s4 = p s1 * v s1 / T s1.
Proof.
  intros Hg (Hp1 & HT1 & HT3 & Hgam).
  assert (H3 : 0 < T3) by lra.
  eexists (built b s l r), (evaluated (built b s l r) p1 T1 T3 g), _, _, _, _.
  split; [apply init_valid; assumption|].
  split; [apply valid_cycle; assumption|].
  split; [apply evaluated_state_1|]. split; [apply evaluated_state_2|].
  split; [apply evaluated_state_3|]. split; [apply evaluated_state_4|].
  cbn [p v T compression_ratio clearance_volume total_volume built].
  pose proof (built_volumes_pos b s l r Hg) as [Hc Ht]. simpl in Hc, Ht.
  pose proof (Rpower_pos r (g - 1)) as Hpw.
  pose proof (total_is_ratio_times_clearance b s l r Hg) as Hvt.
  pose proof (expansion_ratio_pos b s l r T1 T3 g Hg HT1 H3) as Hq.
  assert (Hr : 1 < r) by (destruct Hg as (_ & _ & _ & Hr); exact Hr).
  rewrite (Rpower_split r g) by lra.
  set (vc := swept b s / (r - 1)) in *.
  set (vt := swept b s + vc) in *.
  set (R1 := Rpower r (g - 1)) in *.
  assert (E2 : p1 * (R1 * r) * vc / (T1 * R1) = p1 * vt / T1).
  { rewrite Hvt. field. split; lra. }
  split; [exact E2|]. split.
  - rewrite <- E2. field. repeat split; lra.
  - rewrite (Rpower_split (vc * T3 / (T1 * R1) / vt) g) by exact Hq.
    pose proof (Rpower_pos (vc * T3 / (T1 * R1) / vt) (g - 1)) as Hqp.
    set (Q1 := Rpower (vc * T3 / (T1 * R1) / vt) (g - 1)) in *.
    rewrite <- E2. field. repeat split; lra.
Qed.

Lemma state_points_obey_ideal_gas_law_witness :
  valid_geometry 1 1 1 2 /\ valid_conditions 1 1 3 2 /\
  exists self c s1 s4,
    init 1 1 1 2 = Ret self /\
    ideal_diesel_cycle self 1 1 3 2 = Ret c /\
    states c !! 1%nat = Some s1 /\ states c !! 4%nat = Some s4 /\
    p s4 * v s4 / T s4 = p s1 * v s1 / T s1.
Proof.
  assert (Hg : valid_geometry 1 1 1 2) by (unfold valid_geometry; lra).
  assert (Hc : valid_conditions 1 1 3 2) by (unfold valid_conditions; lra).
  split; [exact Hg|]. split; [exact Hc|].
  destruct (state_points_obey_ideal_gas_law 1 1 1 2 1 1 3 2 Hg Hc)
    as (self & c & s1 & s2 & s3 & s4 & Hi & Hcyc & L1 & _ & _ & L4 & _ & _ & E4).
  exists self, c, s1, s4. repeat split; assumption.
Defined.

(** Compression and expansion are isentropic between their end points:
    [p * v^gamma] and [T * v^(gamma-1)] agree at states 1 and 2, and at
    states 3 and 4. *)
Theorem state_points_isentropic (b s l r p1 T1 T3 g : R) :
  valid_geometry b s l r ->
  valid_conditions p1 T1 T3 g ->
  exists self c s1 s2 s3 s4,
    init b s l r = Ret self /\
    ideal_diesel_cycle self p1 T1 T3 g = Ret c /\
    states c !! 1%nat = Some s1 /\ states c !! 2%nat = Some s2 /\
    states c !! 3%nat = Some s3 /\ states c !! 4%nat = Some s4 /\
    p s2 * Rpower (v s2) g = p s1 * Rpower (v s1) g /\
    T s2 * Rpower (v s2) (g - 1) = T s1 * Rpower (v s1) (g - 1) /\
    p s4 * Rpower (v s4) g = p s3 * Rpower (v s3) g /\
    T s4 * Rpower (v s4) (g - 1) = T s3 * Rpower (v s3) (g - 1).
Proof.
  intros Hg (Hp1 & HT1 & HT3 & Hgam).
  assert (H3 : 0 < T3) by lra.
  eexists (built b s l r), (evaluated (built b s l r) p1 T1 T3 g), _, _, _, _.
  split; [apply init_valid; assumption|].
  split; [apply valid_cycle; assumption|].
  split; [apply evaluated_state_1|]. split; [apply evaluated_state_2|].
  split; [apply evaluated_state_3|]. split; [apply evaluated_state_4|].
  cbn [p v T compression_ratio clearance_volume total_volume built].
  pose proof (built_volumes_pos b s l r Hg) as [Hc Ht]. simpl in Hc, Ht.
  pose proof (total_is_ratio_times_clearance b s l r Hg) as Hvt.
  pose proof (expansion_ratio_pos b s l r T1 T3 g Hg HT1 H3) as Hq.
  assert (Hr : 1 < r) by (destruct Hg as (_ & _ & _ & Hr); exact Hr).
  set (vc := swept b s / (r - 1)) in *.
  set (vt := swept b s + vc) in *.
  assert (Hvt0 : 0 < vt) by lra.
  assert (Hq' : vc * T3 / (T1 * Rpower r (g - 1)) / vt * vt
                = vc * T3 / (T1 * Rpower r (g - 1))).
  { field. pose proof (Rpower_pos r (g - 1)). repeat split; lra. }
  repeat split.
  - rewrite Rmult_assoc, Rpower_mult_distr by lra. rewrite <- Hvt. reflexivity.
  - rewrite Rmult_assoc, Rpower_mult_distr by lra. rewrite <- Hvt. reflexivity.
  - rewrite Rmult_assoc, Rpower_mult_distr by assumption. rewrite Hq'.
    reflexivity.
  - rewrite Rmult_assoc, Rpower_mult_distr by assumption. rewrite Hq'.
    reflexivity.
Qed.

Lemma state_points_isentropic_witness :
  valid_geometry 1 1 1 2 /\ valid_conditions 1 1 3 2 /\
  exists self c s1 s2,
    init 1 1 1 2 = Ret self /\
    ideal_diesel_cycle self 1 1 3 2 = Ret c /\
    states c !! 1%nat = Some s1 /\ states c !! 2%nat = Some s2 /\
    p s2 * Rpower (v s2) 2 = p s1 * Rpower (v s1) 2.
Proof.
  assert (Hg : valid_geometry 1 1 1 2) by (unfold valid_geometry; lra).
  assert (Hc : valid_conditions 1 1 3 2) by (unfold valid_conditions; lra).
  split; [exact Hg|]. split; [exact Hc|].
  destruct (state_points_isentropic 1 1 1 2 1 1 3 2 Hg Hc)
    as (self & c & s1 & s2 & s3 & s4 & Hi & Hcyc & L1 & L2 & _ & _ & E & _).
  exists self, c, s1, s2. repeat split; assumption.
Defined.

Lemma Rpower_lt_1 (x y : R) : 0 < x < 1 -> 0 < y -> Rpower x y < 1.
Proof.
  intros Hx Hy. rewrite <- (Rpower_one_base y). apply Rlt_Rpower_l; lra.
Qed.

(** When the combustion temperature lies strictly between the compression
    temperature [T2] and [T1 * r^gamma], the state points are ordered as a
    Diesel cycle is drawn: [v2 < v3 < v4 = v1], [p1 < p4 < p3 = p2],
    [T1 < T2 < T3] and [T1 < T4 < T3]. *)
Theorem state_points_ordered (b s l r p1 T1 T3 g : R) :
  valid_geometry b s l r ->
  valid_conditions p1 T1 T3 g ->
  T1 * Rpower r (g - 1) < T3 ->
  T3 < T1 * Rpower r g ->
  exists self c s1 s2 s3 s4,
    init b s l r = Ret self /\
    ideal_diesel_cycle self p1 T1 T3 g = Ret c /\
    states c !! 1%nat = Some s1 /\ states c !! 2%nat = Some s2 /\
    states c !! 3%nat = Some s3 /\ states c !! 4%nat = Some s4 /\
    (v s2 < v s3 /\ v s3 < v s4 /\ v s4 = v s1) /\
    (p s1 < p s4 /\ p s4 < p s3 /\ p s3 = p s2) /\
    (T s1 < T s2 /\ T s2 < T s3) /\
    (T s1 < T s4 /\ T s4 < T s3).
Proof.
  intros Hg (Hp1 & HT1 & HT3 & Hgam) Hlo Hhi.
  assert (H3 : 0 < T3) by lra.
  eexists (built b s l r), (evaluated (built b s l r) p1 T1 T3 g), _, _, _, _.
  split; [apply init_valid; assumption|].
  split; [apply valid_cycle; assumption|].
  split; [apply evaluated_state_1|]. split; [apply evaluated_state_2|].
  split; [apply evaluated_state_3|]. split; [apply evaluated_state_4|].
  cbn [p v T compression_ratio clearance_volume total_volume built].
  pose proof (built_volumes_pos b s l r Hg) as [Hc Ht]. simpl in Hc, Ht.
  pose proof (expansion_ratio_pos b s l r T1 T3 g Hg HT1 H3) as Hq.
  pose proof (expansion_ratio_value b s l r T1 T3 g Hg HT1) as Hqv.
  assert (Hr : 1 < r) by (destruct Hg as (_ & _ & _ & Hr); exact Hr).
  pose proof (Rpower_pos r (g - 1)) as HR1.
  pose proof (Rpower_pos r g) as HRg.
  pose proof (Rpower_split r g ltac:(lra)) as Hsplit.
  set (vc := swept b s / (r - 1)) in *.
  set (vt := swept b s + vc) in *.
  set (R1 := Rpower r (g - 1)) in *.
  set (T2 := T1 * R1) in *.
  assert (HT2 : 0 < T2) by (unfold T2; nra).
  set (rho := T3 / T2) in *.
  assert (Hrho : 1 < rho).
  { unfold rho. apply (Rmult_lt_reg_r T2); [exact HT2|].
    unfold Rdiv. rewrite Rmult_assoc, Rinv_l by lra. lra. }
  assert (Hrho_r : rho < r).
  { unfold rho. apply (Rmult_lt_reg_r T2); [exact HT2|].
    unfold Rdiv. rewrite Rmult_assoc, Rinv_l by lra. unfold T2. nra. }
  set (q := vc * T3 / T2 / vt) in *.
  assert (Hq1 : q < 1).
  { rewrite Hqv. apply (Rmult_lt_reg_r r); [lra|].
    unfold Rdiv at 1. rewrite Rmult_assoc, Rinv_l by lra. lra. }
  assert (Hrq : r * q = rho) by (rewrite Hqv; field; lra).
  assert (Hv3 : vc * T3 / T2 = vc * rho) by (unfold rho; field; lra).
  assert (Hv3' : vc * T3 / T2 = q * vt) by (unfold q; field; lra).
  pose proof (Rpower_lt_1 q g (conj Hq Hq1) ltac:(lra)) as Hqg.
  pose proof (Rpower_lt_1 q (g - 1) (conj Hq Hq1) ltac:(lra)) as Hqg1.
  pose proof (Rpower_pos q g) as Hqg0.
  pose proof (Rpower_pos q (g - 1)) as Hqg10.
  pose proof (Rpower_gt_1 r (g - 1) Hr ltac:(lra)) as HR1gt.
  fold R1 in HR1gt.
  assert (Hp4 : 1 < Rpower r g * Rpower q g).
  { rewrite Rpower_mult_distr by lra. rewrite Hrq.
    apply Rpower_gt_1; lra. }
  assert (HT4 : 1 < R1 * Rpower q (g - 1)).
  { unfold R1. rewrite Rpower_mult_distr by lra. rewrite Hrq.
    apply Rpower_gt_1; lra. }
  assert (HT3eq : T3 = rho * T2) by (unfold rho; field; lra).
  split; [|split; [|split]].
  - split; [rewrite Hv3; nra|]. split; [rewrite Hv3'; nra | reflexivity].
  - split; [|split; [|reflexivity]].
    + rewrite Rmult_assoc. nra.
    + assert (0 < p1 * Rpower r g) by nra. nra.
  - split; [unfold T2; nra | lra].
  - split; [|nra].
    rewrite HT3eq at 1. unfold T2.
    assert (Hexp : rho * (T1 * R1) * Rpower q (g - 1)
                   = T1 * rho * (R1 * Rpower q (g - 1))) by ring.
    rewrite Hexp. set (X := R1 * Rpower q (g - 1)) in *.
    assert (HX : 1 < rho * X) by nra.
    rewrite Rmult_assoc. nra.
Qed.

Lemma state_points_ordered_witness :
  valid_geometry 1 1 1 2 /\ valid_conditions 1 1 3 2 /\
  1 * Rpower 2 (2 - 1) < 3 /\ 3 < 1 * Rpower 2 2 /\
  exists self c s1 s2 s3 s4,
    init 1 1 1 2 = Ret self /\
    ideal_diesel_cycle self 1 1 3 2 = Ret c /\
    states c !! 1%nat = Some s1 /\ states c !! 2%nat = Some s2 /\
    states c !! 3%nat = Some s3 /\ states c !! 4%nat = Some s4 /\
    v s2 < v s3 /\ v s3 < v s4 /\ p s1 < p s4 /\ p s4 < p s3.
Proof.
  assert (Hg : valid_geometry 1 1 1 2) by (unfold valid_geometry; lra).
  assert (Hc : valid_conditions 1 1 3 2) by (unfold valid_conditions; lra).
  assert (Hlo : 1 * Rpower 2 (2 - 1) < 3) by (rewrite Rpower_2_1; lra).
  assert (Hhi : 3 < 1 * Rpower 2 2) by (rewrite Rpower_2_2; lra).
  split; [exact Hg|]. split; [exact Hc|]. split; [exact Hlo|].
  split; [exact Hhi|].
  destruct (state_points_ordered 1 1 1 2 1 1 3 2 Hg Hc Hlo Hhi)
    as (self & c & s1 & s2 & s3 & s4 & Hi & Hcyc & L1 & L2 & L3 & L4
        & (V23 & V34 & _) & (P14 & P43 & _) & _).
  exists self, c, s1, s2, s3, s4. repeat split; assumption.
Defined.

(** ** More on the slider-crank volume *)

(** On a valid geometry whose rod is at least as long as the crank radius,
    [instantaneous_volume] is defined at every angle and stays between the
    clearance volume and the total volume. *)
Theorem instantaneous_volume_bounded (b s l r theta : R) :
  valid_geometry b s l r ->
  s / 2 <= l ->
  exists self V,
    init b s l r = Ret self /\
    instantaneous_volume self theta = Ret V /\
    clearance_volume self <= V <= total_volume self.
Proof.
  intros Hg Hrod.
  eexists (built b s l r), _.
  split; [apply init_valid; assumption|].
  destruct Hg as (Hb & Hs & Hl & Hr).
  assert (Hgeo : 0 <= stroke (built b s l r) / 2
                 <= connecting_rod_length (built b s l r)) by (simpl; lra).
  split; [apply instantaneous_volume_value; exact Hgeo|].
  cbn [stroke connecting_rod_length bore clearance_volume total_volume built].
  assert (HR0 : 0 <= s / 2) by lra.
  assert (Hl0 : 0 <= l) by lra.
  pose proof (COS_bound theta) as [Hlo Hhi].
  assert (Hup : pin (s / 2) l theta <= pin (s / 2) l 0).
  { apply (pin_monotone_in_cos (s / 2) l HR0 Hrod). rewrite cos_0. lra. }
  assert (Hdn : pin (s / 2) l PI <= pin (s / 2) l theta).
  { apply (pin_monotone_in_cos (s / 2) l HR0 Hrod). rewrite cos_PI. lra. }
  rewrite pin_at_tdc in Hup by assumption.
  rewrite pin_at_bdc in Hdn by assumption.
  unfold pin in Hup, Hdn.
  assert (Hk : 0 <= PI / 4 * b ^ 2).
  { pose proof PI_RGT_0. apply Rmult_le_pos; [lra | apply pow2_ge_0]. }
  set (x := s / 2 * cos theta + sqrt (l ^ 2 - (s / 2 * sin theta) ^ 2)) in *.
  assert (H0 : 0 <= l + s / 2 - x) by lra.
  assert (H1 : l + s / 2 - x <= s) by lra.
  split.
  - assert (0 <= PI / 4 * b ^ 2 * (l + s / 2 - x)) by (apply Rmult_le_pos; lra).
    lra.
  - assert (PI / 4 * b ^ 2 * (l + s / 2 - x) <= swept b s).
    { unfold swept. apply Rmult_le_compat_l; assumption. }
    lra.
Qed.

Lemma instantaneous_volume_bounded_witness :
  valid_geometry (1 / 10) (1 / 10) (3 / 20) 18 /\ 1 / 10 / 2 <= 3 / 20 /\
  exists self V,
    init (1 / 10) (1 / 10) (3 / 20) 18 = Ret self /\
    instantaneous_volume self 1 = Ret V /\
    clearance_volume self <= V <= total_volume self.
Proof.
  assert (Hg : valid_geometry (1 / 10) (1 / 10) (3 / 20) 18)
    by (unfold valid_geometry; lra).
  assert (Hrod : 1 / 10 / 2 <= 3 / 20) by lra.
  split; [exact Hg|]. split; [exact Hrod|].
  exact (instantaneous_volume_bounded _ _ _ _ 1 Hg Hrod).
Defined.

(** [instantaneous_volume] is even and [2 * PI]-periodic in the crank angle,
    value or [nan] alike: the stroke from [PI] to [2 * PI] retraces the one
    from [0] to [PI] backwards. *)
Theorem instantaneous_volume_symmetric (self : t) (theta : R) :
  instantaneous_volume self (- theta) = instantaneous_volume self theta /\
  instantaneous_volume self (theta + 2 * PI) = instantaneous_volume self theta /\
  instantaneous_volume self (2 * PI - theta) = instantaneous_volume self theta.
Proof.
  assert (Hneg : instantaneous_volume self (- theta)
                 = instantaneous_volume self theta).
  { unfold instantaneous_volume. rewrite sin_neg, cos_neg.
    replace ((stroke self / 2 * - sin theta) ^ 2)
      with ((stroke self / 2 * sin theta) ^ 2) by ring.
    reflexivity. }
  assert (Hper : forall x, instantaneous_volume self (x + 2 * PI)
                           = instantaneous_volume self x).
  { intros x. unfold instantaneous_volume.
    rewrite sin_plus, cos_plus, sin_2PI, cos_2PI.
    replace (sin x * 1 + cos x * 0) with (sin x) by ring.
    replace (cos x * 1 - sin x * 0) with (cos x) by ring.
    reflexivity. }
  split; [exact Hneg|]. split; [apply Hper|].
  replace (2 * PI - theta) with (- theta + 2 * PI) by ring.
  rewrite Hper. exact Hneg.
Qed.

(** A rod shorter than the crank radius is accepted by the constructor, but
    the volume is then [nan] exactly at the angles where the crank pin is
    farther from the cylinder axis than the rod is long, mid-stroke among
    them; no exception is raised. *)
Theorem short_rod_gives_nan_mid_stroke (b s l r : R) :
  r <> 1 -> 0 <= l -> l < s / 2 ->
  exists self,
    init b s l r = Ret self /\
    instantaneous_volume self (PI / 2) = NonReal /\
    forall theta,
      instantaneous_volume self theta = NonReal <->
      l ^ 2 < (s / 2 * sin theta) ^ 2.
Proof.
  intros Hr Hl0 Hshort. exists (built b s l r).
  split.
  { rewrite init_total. destruct (Req_dec_T r 1); [contradiction | reflexivity]. }
  assert (Hchar : forall theta,
             instantaneous_volume (built b s l r) theta = NonReal <->
             l ^ 2 < (s / 2 * sin theta) ^ 2).
  { intros theta. unfold instantaneous_volume, np_sqrt.
    cbn [stroke connecting_rod_length bore clearance_volume built].
    destruct (Rlt_dec (l ^ 2 - (s / 2 * sin theta) ^ 2) 0) as [Hneg|Hpos];
      cbn [bind]; split; intros H; try lra; try reflexivity; discriminate. }
  split; [|exact Hchar].
  apply Hchar. rewrite sin_PI2. nra.
Qed.

Lemma short_rod_gives_nan_mid_stroke_witness :
  2 <> 1 /\ 0 <= 1 / 4 /\ 1 / 4 < 1 / 2 /\
  exists self,
    init 1 1 (1 / 4) 2 = Ret self /\
    instantaneous_volume self (PI / 2) = NonReal.
Proof.
  assert (Hr : 2 <> 1) by lra.
  assert (Hl : 0 <= 1 / 4) by lra.
  assert (Hs : 1 / 4 < 1 / 2) by lra.
  split; [exact Hr|]. split; [exact Hl|]. split; [exact Hs|].
  destruct (short_rod_gives_nan_mid_stroke 1 1 (1 / 4) 2 Hr Hl Hs)
    as (self & Hi & Hnan & _).
  exists self. split; assumption.
Defined.

(** ** The diagram as a closed loop *)

(** For [n_points >= 2] the four curves join end to end: compression runs
    from state 1 to state 2, heat addition from 2 to 3, expansion from 3 to
    4, and heat rejection from 4 back to state 1, in volume and in
    pressure. *)
Theorem pv_diagram_is_closed_loop (b s l r p1 T1 T3 g : R) (n : Z) :
  valid_geometry b s l r ->
  valid_conditions p1 T1 T3 g ->
  (2 <= n)%Z ->
  exists self c s1 s2 s3 s4 d,
    init b s l r = Ret self /\
    ideal_diesel_cycle self p1 T1 T3 g = Ret c /\
    states c !! 1%nat = Some s1 /\ states c !! 2%nat = Some s2 /\
    states c !! 3%nat = Some s3 /\ states c !! 4%nat = Some s4 /\
    generate_pv_diagram self c n = Ret d /\
    let last := (Z.to_nat n - 1)%nat in
    ((compression d).1 !! 0%nat = Some (v s1) /\
     (compression d).2 !! 0%nat = Some (p s1) /\
     (compression d).1 !! last = Some (v s2) /\
     (compression d).2 !! last = Some (p s2)) /\
    ((heat_addition d).1 !! 0%nat = Some (v s2) /\
     (heat_addition d).2 !! 0%nat = Some (p s2) /\
     (heat_addition d).1 !! last = Some (v s3) /\
     (heat_addition d).2 !! last = Some (p s3)) /\
    ((expansion d).1 !! 0%nat = Some (v s3) /\
     (expansion d).2 !! 0%nat = Some (p s3) /\
     (expansion d).1 !! last = Some (v s4) /\
     (expansion d).2 !! last = Some (p s4)) /\
    ((heat_rejection d).1 !! 0%nat = Some (v s4) /\
     (heat_rejection d).2 !! 0%nat = Some (p s4) /\
     (heat_rejection d).1 !! last = Some (v s1) /\
     (heat_rejection d).2 !! last = Some (p s1)).
Proof.
  intros Hg (Hp1 & HT1 & HT3 & Hgam) Hn.
  assert (H3 : 0 < T3) by lra.
  pose proof (built_volumes_pos b s l r Hg) as [Hc Ht].
  assert (Hr : 1 < r) by (destruct Hg as (_ & _ & _ & Hr); exact Hr).
  assert (Hratio : total_volume (built b s l r) / clearance_volume (built b s l r)
                   = r).
  { apply built_ratio; [|lra].
    destruct Hg as (Hb & Hs & _). pose proof (swept_pos b s Hb Hs). lra. }
  set (self := built b s l r) in *.
  set (c := evaluated self p1 T1 T3 g).
  pose proof (evaluated_state_1 self p1 T1 T3 g) as L1.
  pose proof (evaluated_state_2 self p1 T1 T3 g) as L2.
  pose proof (evaluated_state_3 self p1 T1 T3 g) as L3.
  pose proof (evaluated_state_4 self p1 T1 T3 g) as L4.
  fold c in L1, L2, L3, L4.
  match type of L1 with _ = Some ?x => set (s1 := x) in * end.
  match type of L2 with _ = Some ?x => set (s2 := x) in * end.
  match type of L3 with _ = Some ?x => set (s3 := x) in * end.
  match type of L4 with _ = Some ?x => set (s4 := x) in * end.
  assert (Hv1 : 0 < v s1) by (unfold s1; cbn [v]; lra).
  assert (Hv2 : 0 < v s2) by (unfold s2; cbn [v]; lra).
  assert (Hv3 : 0 < v s3).
  { unfold s3; cbn [v]. apply Rdiv_pos; [apply Rmult_lt_0_compat; assumption|].
    apply (T2_pos self T1 g); assumption. }
  assert (Hv4 : 0 < v s4) by (unfold s4; cbn [v]; lra).
  exists self, c, s1, s2, s3, s4, (sampled s1 s2 s3 s4 (gamma c) (Z.to_nat n)).
  split; [apply init_valid; assumption|].
  split; [apply valid_cycle; assumption|].
  do 4 (split; [assumption|]).
  split; [apply (generate_pv_diagram_sampled self c s1 s2 s3 s4);
          (assumption || lia)|].
  assert (Hfirst : (0 < Z.to_nat n)%nat) by lia.
  assert (Hlast : (Z.to_nat n - 1 < Z.to_nat n)%nat) by lia.
  cbn zeta. unfold sampled.
  cbn [compression heat_addition expansion heat_rejection fst snd].
  rewrite !list_lookup_fmap, !lookup_spec_sample by assumption.
  rewrite length_linspace_samples.
  rewrite !lookup_replicate_2 by assumption.
  rewrite !spec_sample_first, !spec_sample_last by assumption.
  cbn [fmap option_fmap option_map].
  assert (Hself1 : forall x y, 0 < x -> y * Rpower (x / x) (gamma c) = y).
  { intros x y Hx. unfold Rdiv. rewrite Rinv_r by lra.
    rewrite Rpower_one_base. ring. }
  rewrite !Hself1 by assumption.
  assert (Hcomp : p s1 * Rpower (v s1 / v s2) (gamma c) = p s2).
  { unfold s1, s2. cbn [p v]. rewrite Hratio. reflexivity. }
  rewrite Hcomp.
  repeat split.
Qed.

Lemma pv_diagram_is_closed_loop_witness :
  valid_geometry 1 1 1 2 /\ valid_conditions 1 1 3 2 /\ (2 <= 3)%Z /\
  exists self c s1 s2 d,
    init 1 1 1 2 = Ret self /\
    ideal_diesel_cycle self 1 1 3 2 = Ret c /\
    states c !! 1%nat = Some s1 /\ states c !! 2%nat = Some s2 /\
    generate_pv_diagram self c 3 = Ret d /\
    (compression d).2 !! 2%nat = Some (p s2) /\
    (heat_rejection d).2 !! 2%nat = Some (p s1).
Proof.
  assert (Hg : valid_geometry 1 1 1 2) by (unfold valid_geometry; lra).
  assert (Hc : valid_conditions 1 1 3 2) by (unfold valid_conditions; lra).
  assert (Hn : (2 <= 3)%Z) by lia.
  split; [exact Hg|]. split; [exact Hc|]. split; [exact Hn|].
  destruct (pv_diagram_is_closed_loop 1 1 1 2 1 1 3 2 3 Hg Hc Hn)
    as (self & c & s1 & s2 & s3 & s4 & d & Hi & Hcyc & L1 & L2 & _ & _ & Hd
        & (_ & _ & _ & C4) & _ & _ & (_ & _ & _ & R4)).
  exists self, c, s1, s2, d. repeat split; assumption.
Defined.

(** ** What the efficiency depends on *)



(** ** Which exceptions can occur *)

Lemma py_div_cases (x y : R) :
  py_div x y = Raise ZeroDivisionError \/ py_div x y = Ret (x / y).
Proof. unfold py_div. destruct (Req_dec_T y 0); auto. Qed.


Lemma getitem_cases {A : Type} (d : gmap nat A) (k : nat) :
  (d !! k = None /\ getitem d k = Raise KeyError) \/
  (exists a, d !! k = Some a /\ getitem d k = Ret a).
Proof. unfold getitem. destruct (d !! k); eauto. Qed.


Lemma map_outcome_no_raise {A B : Type} (f : A -> outcome B) (l : list A)
      (e : exn) :
  (forall a, f a <> Raise e) -> map_outcome f l <> Raise e.
Proof.
  intros Hf. induction l as [|a l IH]; cbn [map_outcome]; [discriminate|].
  specialize (Hf a). destruct (f a); cbn [bind]; try congruence.
  destruct (map_outcome f l); cbn [bind]; congruence.
Qed.

Lemma isentrope_no_raise (pa va g : R) (l : list R) (e : exn) :
  isentrope pa va g l <> Raise e.
Proof.
  unfold isentrope. apply map_outcome_no_raise. intros x.
  unfold np_div. destruct (Req_dec_T x 0); cbn [bind]; [discriminate|].
  unfold np_pow.
  repeat match goal with
         | |- context [Rlt_dec ?a ?b] => destruct (Rlt_dec a b)
         | |- context [Req_dec_T ?a ?b] => destruct (Req_dec_T a b)
         end; cbn [bind]; discriminate.
Qed.

(** [generate_pv_diagram] never raises [ZeroDivisionError], whatever the
    dictionary and the number of points: its divisions are NumPy array
    divisions, which yield [inf] or [nan] for a zero volume. *)
Theorem generate_pv_diagram_never_divides_by_zero
        (self : t) (c : cycle) (n : Z) :
  generate_pv_diagram self c n <> Raise ZeroDivisionError.
Proof.
  unfold generate_pv_diagram, np_linspace, np_full.
  repeat match goal with
         | |- context [getitem ?d ?k] =>
             destruct (getitem_cases d k) as [[_ E]|(? & _ & E)];
             rewrite E; clear E; cbn [bind]; [discriminate|]
         | |- context [(n <? 0)%Z] =>
             destruct (n <? 0)%Z; cbn [bind]; [discriminate|]
         | |- context [isentrope ?a ?b ?g ?l] =>
             let H := fresh "H" in
             pose proof (isentrope_no_raise a b g l ZeroDivisionError) as H;
             destruct (isentrope a b g l); cbn [bind];
             [clear H | congruence | discriminate]
         end.
  discriminate.
Qed.

(** ** Plotting *)

Lemma generate_pv_diagram_Ret_states (self : t) (c : cycle) (n : Z)
      (d : pv_data) :
  generate_pv_diagram self c n = Ret d ->
  exists s1 s2 s3 s4,
    states c !! 1%nat = Some s1 /\ states c !! 2%nat = Some s2 /\
    states c !! 3%nat = Some s3 /\ states c !! 4%nat = Some s4.
Proof.
  unfold generate_pv_diagram. intros H.
  destruct (getitem_cases (states c) 1) as [[_ E]|(s1 & L1 & E)];
    rewrite E in H; cbn [bind] in H; [discriminate|].
  destruct (getitem_cases (states c) 2) as [[_ E2]|(s2 & L2 & E2)];
    rewrite E2 in H; cbn [bind] in H; [discriminate|].
  destruct (np_linspace (v s1) (v s2) n); cbn [bind] in H; try discriminate.
  destruct (isentrope (p s1) (v s1) (gamma c) a); cbn [bind] in H;
    try discriminate.
  destruct (getitem_cases (states c) 3) as [[_ E3]|(s3 & L3 & E3)];
    rewrite E3 in H; cbn [bind] in H; [discriminate|].
  destruct (np_linspace (v s2) (v s3) n); cbn [bind] in H; try discriminate.
  destruct (getitem_cases (states c) 4) as [[_ E4]|(s4 & L4 & E4)];
    rewrite E4 in H; cbn [bind] in H; [discriminate|].
  exists s1, s2, s3, s4. auto.
Qed.

Lemma calculate_efficiency_Ret_cutoff (self : t) (c : cycle) (s2 s3 : state)
      (eta : R) :
  states c !! 2%nat = Some s2 -> states c !! 3%nat = Some s3 ->
  calculate_efficiency self c = Ret eta ->
  py_div (v s3) (v s2) = Ret (v s3 / v s2).
Proof.
  intros L2 L3 H. unfold calculate_efficiency in H.
  rewrite (getitem_Some _ _ _ L3), (getitem_Some _ _ _ L2) in H.
  cbn [bind] in H.
  destruct (py_div_cases (v s3) (v s2)) as [E|E]; [|exact E].
  rewrite E in H. discriminate.
Qed.

(** Whenever the curve data for the default 100 points can be generated,
    [plot_pv_diagram] ends the way [calculate_efficiency] does: it raises
    what that call raises, and otherwise returns that efficiency after
    handing matplotlib the four curves in cycle order, one marker per state
    point, the efficiency and the cut-off ratio [v3/v2]. *)
Theorem plot_pv_diagram_follows_efficiency (self : t) (c : cycle)
        (d : pv_data) :
  generate_pv_diagram self c 100 = Ret d ->
  exists s1 s2 s3 s4,
    states c !! 1%nat = Some s1 /\ states c !! 2%nat = Some s2 /\
    states c !! 3%nat = Some s3 /\ states c !! 4%nat = Some s4 /\
    plot_pv_diagram self c =
    match calculate_efficiency self c with
    | Ret eta =>
        Ret ([Line Compression (compression d).1 (compression d).2;
              Line HeatAddition (heat_addition d).1 (heat_addition d).2;
              Line Expansion (expansion d).1 (expansion d).2;
              Line HeatRejection (heat_rejection d).1 (heat_rejection d).2;
              Marker 1 (v s1) (p s1); Marker 2 (v s2) (p s2);
              Marker 3 (v s3) (p s3); Marker 4 (v s4) (p s4);
              EfficiencyText eta; CutOffText (v s3 / v s2)],
             eta)
    | Raise e => Raise e
    | NonReal => NonReal
    end.
Proof.
  intros Hgen.
  destruct (generate_pv_diagram_Ret_states self c 100 d Hgen)
    as (s1 & s2 & s3 & s4 & L1 & L2 & L3 & L4).
  exists s1, s2, s3, s4. do 4 (split; [assumption|]).
  unfold plot_pv_diagram. rewrite Hgen. cbn [bind].
  destruct (compression d) as [vc pc], (heat_addition d) as [vh ph],
    (expansion d) as [ve pe], (heat_rejection d) as [vr pr].
  cbn [map_outcome].
  rewrite (getitem_Some _ _ _ L1), (getitem_Some _ _ _ L2),
    (getitem_Some _ _ _ L3), (getitem_Some _ _ _ L4).
  cbn [bind].
  destruct (calculate_efficiency self c) as [eta| |] eqn:Heff; cbn [bind];
    try reflexivity.
  rewrite (calculate_efficiency_Ret_cutoff self c s2 s3 eta L2 L3 Heff).
  reflexivity.
Qed.

Lemma plot_pv_diagram_follows_efficiency_witness :
  exists d,
    generate_pv_diagram (built 1 1 1 2)
                        (evaluated (built 1 1 1 2) 1 1 3 2) 100 = Ret d /\
    exists artists eta,
      plot_pv_diagram (built 1 1 1 2) (evaluated (built 1 1 1 2) 1 1 3 2)
      = Ret (artists, eta) /\
      calculate_efficiency (built 1 1 1 2) (evaluated (built 1 1 1 2) 1 1 3 2)
      = Ret eta /\
      length artists = 10%nat.
Proof.
  assert (Hg : valid_geometry 1 1 1 2) by (unfold valid_geometry; lra).
  assert (Hc : valid_conditions 1 1 3 2) by (unfold valid_conditions; lra).
  assert (Hne : 3 <> 1 * Rpower 2 (2 - 1)) by (rewrite Rpower_2_1; lra).
  destruct (valid_states_pos 1 1 1 2 1 1 3 2 Hg) as
    (s1 & s2 & s3 & s4 & (L1 & L2 & L3 & L4) & (H1 & H2 & H3 & H4)); try lra.
  assert (Hgen : generate_pv_diagram (built 1 1 1 2)
                   (evaluated (built 1 1 1 2) 1 1 3 2) 100
                 = Ret (sampled s1 s2 s3 s4 2 (Z.to_nat 100))).
  { exact (generate_pv_diagram_sampled
             (built 1 1 1 2) (evaluated (built 1 1 1 2) 1 1 3 2)
             s1 s2 s3 s4 100 L1 L2 L3 L4 H1 H2 H3 H4 ltac:(lia)). }
  eexists. split; [exact Hgen|].
  destruct (plot_pv_diagram_follows_efficiency _ _ _ Hgen)
    as (t1 & t2 & t3 & t4 & _ & _ & _ & _ & Hplot).
  destruct (built_efficiency_value 1 1 1 2 1 1 3 2 Hg Hc Hne)
    as (_ & _ & Heff).
  rewrite Heff in Hplot.
  eexists _, _. split; [exact Hplot|]. split; [exact Heff | reflexivity].
Defined.

(** ** The procedural [volume] *)

Lemma sum_of_squares_nonneg (a c : R) : 0 <= a ^ 2 + c ^ 2.
Proof. pose proof (pow2_ge_0 a). pose proof (pow2_ge_0 c). lra. Qed.

(** [volume] fails only by a zero division, for a compression ratio of one
    or a zero stroke; otherwise it returns a number at every angle.  Its
    square root is taken of a sum of squares, so it never yields [nan]. *)
Theorem volume_outcome (d s l r theta : R) :
  Procedural.volume d s l r theta =
  if Req_dec_T r 1 then Raise ZeroDivisionError
  else if Req_dec_T s 0 then Raise ZeroDivisionError
  else Ret ((PI / 4) * d ^ 2 * s
            * (1 / (r - 1)
               + (1 / 2) * (1 + 2 / s - cos theta
                            - sqrt ((2 / s) ^ 2 + (sin theta) ^ 2)))).
Proof.
  unfold Procedural.volume, py_div.
  destruct (Req_dec_T (r - 1) 0) as [Hr|Hr], (Req_dec_T r 1) as [Hr'|Hr'];
    try lra; cbn [bind]; [reflexivity|].
  destruct (Req_dec_T s 0) as [Hs|Hs]; cbn [bind]; [reflexivity|].
  rewrite np_sqrt_ok by apply sum_of_squares_nonneg. reflexivity.
Qed.

Lemma volume_value (d s l r theta : R) :
  r <> 1 -> s <> 0 ->
  Procedural.volume d s l r theta =
  Ret ((PI / 4) * d ^ 2 * s
       * (1 / (r - 1)
          + (1 / 2) * (1 + 2 / s - cos theta
                       - sqrt ((2 / s) ^ 2 + (sin theta) ^ 2)))).
Proof.
  intros Hr Hs. unfold Procedural.volume.
  rewrite !py_div_ok by lra. cbn [bind].
  rewrite np_sqrt_ok by apply sum_of_squares_nonneg. reflexivity.
Qed.

(** At top and bottom dead centre the procedural [volume] agrees with the
    object-oriented model, for any rod length: it is the clearance volume at
    angle [0] and the total volume at angle [PI]. *)
Theorem volume_at_dead_centres (d s l r : R) :
  0 < s -> r <> 1 ->
  Procedural.volume d s l r 0 = Ret (clearance_volume (built d s l r)) /\
  Procedural.volume d s l r PI = Ret (total_volume (built d s l r)).
Proof.
  intros Hs Hr.
  assert (H2s : 0 <= 2 / s) by (apply Rlt_le, Rdiv_pos; lra).
  rewrite !volume_value by lra.
  rewrite sin_0, cos_0, sin_PI, cos_PI.
  replace ((2 / s) ^ 2 + 0 ^ 2) with ((2 / s) ^ 2) by ring.
  rewrite sqrt_pow2 by assumption.
  cbn [clearance_volume total_volume built]. unfold swept.
  split; f_equal; field; split; lra.
Qed.

Lemma volume_at_dead_centres_witness :
  0 < 1 / 10 /\ 12 <> 1 /\
  Procedural.volume (1 / 10) (1 / 10) (3 / 20) 12 0
  = Ret (clearance_volume (built (1 / 10) (1 / 10) (3 / 20) 12)) /\
  Procedural.volume (1 / 10) (1 / 10) (3 / 20) 12 PI
  = Ret (total_volume (built (1 / 10) (1 / 10) (3 / 20) 12)).
Proof.
  assert (Hs : 0 < 1 / 10) by lra.
  assert (Hr : 12 <> 1) by lra.
  split; [exact Hs|]. split; [exact Hr|].
  exact (volume_at_dead_centres (1 / 10) (1 / 10) (3 / 20) 12 Hs Hr).
Defined.

Section ProceduralKinematics.
Variable a : R.
Hypothesis Ha : 1 <= a.

(** The angle-dependent part of [term2 - term3]. *)
Lemma travel_monotone_in_cos (x y : R) :
  cos y <= cos x ->
  - cos x - sqrt (a ^ 2 + (sin x) ^ 2) <= - cos y - sqrt (a ^ 2 + (sin y) ^ 2).
Proof.
  intros Hcos.
  assert (Hrad : forall t, a ^ 2 + (sin t) ^ 2 = (a ^ 2 + 1) - (cos t) ^ 2).
  { intros t. pose proof (sin2_cos2 t) as H. unfold Rsqr in H. nra. }
  set (sx := sqrt (a ^ 2 + (sin x) ^ 2)).
  set (sy := sqrt (a ^ 2 + (sin y) ^ 2)).
  assert (Hsx0 : 0 <= sx) by apply sqrt_pos.
  assert (Hsy0 : 0 <= sy) by apply sqrt_pos.
  assert (Hsx : sx * sx = (a ^ 2 + 1) - (cos x) ^ 2).
  { unfold sx. rewrite sqrt_sqrt by apply sum_of_squares_nonneg. apply Hrad. }
  assert (Hsy : sy * sy = (a ^ 2 + 1) - (cos y) ^ 2).
  { unfold sy. rewrite sqrt_sqrt by apply sum_of_squares_nonneg. apply Hrad. }
  pose proof (COS_bound x) as [Hx1 Hx2].
  pose proof (COS_bound y) as [Hy1 Hy2].
  (* each root is at least the cosine, because a >= 1 *)
  assert (Hdx : cos x <= sx) by nra.
  assert (Hdy : cos y <= sy) by nra.
  destruct (Rle_lt_dec (sy - sx) (cos x - cos y)) as [Hle|Hgt]; [lra|exfalso].
  assert (Hsum : 0 < sx + sy) by nra.
  assert (Hprod : (sy - sx) * (sy + sx) = (cos x - cos y) * (cos x + cos y))
    by nra.
  assert (Hle' : (cos x - cos y) * (cos x + cos y)
                 <= (cos x - cos y) * (sx + sy)).
  { apply Rmult_le_compat_l; lra. }
  nra.
Qed.
End ProceduralKinematics.

(** For a stroke of at most 2 (metres), [volume] does not decrease as the
    crank angle goes from [0] to [PI]. *)
Theorem volume_monotone (d s l r theta1 theta2 : R) :
  0 < s -> s <= 2 -> r <> 1 ->
  0 <= theta1 -> theta1 <= theta2 -> theta2 <= PI ->
  exists V1 V2,
    Procedural.volume d s l r theta1 = Ret V1 /\
    Procedural.volume d s l r theta2 = Ret V2 /\
    V1 <= V2.
Proof.
  intros Hs Hs2 Hr H1 H12 H2.
  rewrite !volume_value by lra.
  eexists _, _. split; [reflexivity|]. split; [reflexivity|].
  assert (Ha : 1 <= 2 / s).
  { apply (Rmult_le_reg_r s); [lra|].
    unfold Rdiv. rewrite Rmult_assoc, Rinv_l by lra. lra. }
  assert (Hcos : cos theta2 <= cos theta1) by (apply cos_decr_1; lra).
  pose proof (travel_monotone_in_cos (2 / s) Ha theta1 theta2 Hcos) as Hm.
  assert (Hk : 0 <= PI / 4 * d ^ 2 * s).
  { pose proof PI_RGT_0. pose proof (pow2_ge_0 d).
    apply Rmult_le_pos; [apply Rmult_le_pos|]; lra. }
  apply Rmult_le_compat_l; [exact Hk | lra].
Qed.

Lemma volume_monotone_witness :
  0 < 1 / 10 /\ 1 / 10 <= 2 /\ 12 <> 1 /\ 0 <= 0 /\ 0 <= PI /\ PI <= PI /\
  exists V1 V2,
    Procedural.volume (1 / 10) (1 / 10) (3 / 20) 12 0 = Ret V1 /\
    Procedural.volume (1 / 10) (1 / 10) (3 / 20) 12 PI = Ret V2 /\
    V1 <= V2.
Proof.
  assert (Hs : 0 < 1 / 10) by lra.
  assert (Hs2 : 1 / 10 <= 2) by lra.
  assert (Hr : 12 <> 1) by lra.
  assert (H0 : 0 <= 0) by lra.
  assert (H1 : 0 <= PI) by (pose proof PI_RGT_0; lra).
  assert (H2 : PI <= PI) by lra.
  repeat (split; [assumption|]).
  exact (volume_monotone (1 / 10) (1 / 10) (3 / 20) 12 0 PI Hs Hs2 Hr H0 H1 H2).
Defined.

(** ** The two variants agree on the state points *)

(** The module-level computation of the procedural script and
    [ideal_diesel_cycle] of the class yield the same volumes, pressures and
    compression temperature from the same inputs, whatever rod length the
    class is given. *)
Theorem variants_agree_on_state_points (d s l r p1 t1 t3 g : R) :
  valid_geometry d s l r ->
  0 < t1 -> 0 < t3 ->
  exists pts self c s1 s2 s3 s4,
    Procedural.state_points d s r p1 t1 g t3 = Ret pts /\
    init d s l r = Ret self /\
    ideal_diesel_cycle self p1 t1 t3 g = Ret c /\
    states c !! 1%nat = Some s1 /\ states c !! 2%nat = Some s2 /\
    states c !! 3%nat = Some s3 /\ states c !! 4%nat = Some s4 /\
    Procedural.v1 pts = v s1 /\ Procedural.v2 pts = v s2 /\
    Procedural.v3 pts = v s3 /\ Procedural.v4 pts = v s4 /\
    Procedural.p2 pts = p s2 /\ Procedural.p3 pts = p s3 /\
    Procedural.p4 pts = p s4 /\ Procedural.t2 pts = T s2.
Proof.
  intros Hg Ht1 Ht3.
  pose proof (built_volumes_pos d s l r Hg) as [Hc Ht]. simpl in Hc, Ht.
  assert (Hr : 1 < r) by (destruct Hg as (_ & _ & _ & Hr); exact Hr).
  pose proof (Rpower_pos r (g - 1)) as Hpw.
  assert (HT2 : 0 < t1 * Rpower r (g - 1)) by (apply Rmult_lt_0_compat; lra).
  assert (Hv3 : 0 < swept d s / (r - 1) * t3 / (t1 * Rpower r (g - 1))).
  { apply Rdiv_pos; [apply Rmult_lt_0_compat|]; assumption. }
  eexists _, (built d s l r), (evaluated (built d s l r) p1 t1 t3 g), _, _, _, _.
  split.
  { unfold Procedural.state_points. fold (swept d s).
    rewrite py_div_ok by lra. cbn [bind].
    rewrite !py_pow_pos by lra. cbn [bind].
    rewrite py_div_ok by lra. cbn [bind].
    rewrite py_div_ok by lra. cbn [bind].
    rewrite py_pow_pos by (apply Rdiv_pos; lra). cbn [bind].
    reflexivity. }
  split; [apply init_valid; assumption|].
  split; [apply valid_cycle; assumption|].
  split; [apply evaluated_state_1|]. split; [apply evaluated_state_2|].
  split; [apply evaluated_state_3|]. split; [apply evaluated_state_4|].
  repeat split.
Qed.

Lemma variants_agree_on_state_points_witness :
  valid_geometry (1 / 10) (1 / 10) (3 / 20) 12 /\ 0 < 300 /\ 0 < 2500 /\
  exists pts self c s3 s4,
    Procedural.state_points (1 / 10) (1 / 10) 12 (1013 / 10) 300 (7 / 5) 2500
    = Ret pts /\
    init (1 / 10) (1 / 10) (3 / 20) 12 = Ret self /\
    ideal_diesel_cycle self (1013 / 10) 300 2500 (7 / 5) = Ret c /\
    states c !! 3%nat = Some s3 /\ states c !! 4%nat = Some s4 /\
    Procedural.v3 pts = v s3 /\ Procedural.p4 pts = p s4.
Proof.
  assert (Hg : valid_geometry (1 / 10) (1 / 10) (3 / 20) 12)
    by (unfold valid_geometry; lra).
  assert (H1 : 0 < 300) by lra.
  assert (H3 : 0 < 2500) by lra.
  split; [exact Hg|]. split; [exact H1|]. split; [exact H3|].
  destruct (variants_agree_on_state_points
              (1 / 10) (1 / 10) (3 / 20) 12 (1013 / 10) 300 2500 (7 / 5)
              Hg H1 H3)
    as (pts & self & c & s1 & s2 & s3 & s4 & Hp & Hi & Hcyc & _ & _ & L3 & L4
        & _ & _ & E3 & _ & _ & _ & E4 & _).
  exists pts, self, c, s3, s4. repeat split; assumption.
Defined.

(** ** The crank-angle search of the procedural script *)

Section Search.
Variables (d s l r v3 : R).
Hypothesis Hr : r <> 1.
Hypothesis Hs : s <> 0.

Lemma search_spec (fuel : nat) :
  forall theta0 : R,
    PI <= theta0 + INR fuel / 1000 ->
    exists (k : nat) (theta : R),
      theta = theta0 + INR k / 1000 /\
      Procedural.search (S fuel) d s l r v3 theta0 = Some (Ret theta) /\
      (forall j : nat, (j < k)%nat -> theta0 + INR j / 1000 < PI) /\
      (forall j : nat, (1 <= j < k)%nat ->
                       ~ breaks_at d s l r v3 (theta0 + INR j / 1000)) /\
      (((1 <= k)%nat /\ breaks_at d s l r v3 theta) \/ PI <= theta).
Proof.
  induction fuel as [|f IH]; intros theta0 Hfuel.
  - exists 0%nat, theta0. simpl INR in *.
    assert (Hge : PI <= theta0) by lra.
    split; [lra|]. split.
    { cbn [Procedural.search]. destruct (Rlt_dec theta0 PI); [lra | reflexivity]. }
    split; [intros j Hj; lia|]. split; [intros j Hj; lia|]. right. exact Hge.
  - cbn [Procedural.search].
    destruct (Rlt_dec theta0 PI) as [Hlt|Hge].
    + rewrite (volume_value d s l r (theta0 + 1 / 1000) Hr Hs).
      set (v_theta := PI / 4 * d ^ 2 * s * _).
      assert (Hvol : Procedural.volume d s l r (theta0 + 1 / 1000) = Ret v_theta)
        by apply (volume_value d s l r (theta0 + 1 / 1000) Hr Hs).
      assert (Hhit :
                breaks_at d s l r v3 (theta0 + 1 / 1000) ->
                0 < v_theta - v3 /\ v_theta - v3 < 1 / 1000).
      { intros (w & Hw & Hw1 & Hw2). rewrite Hvol in Hw.
        injection Hw as <-. split; assumption. }
      assert (Hstep : forall j : nat,
                 theta0 + INR (S j) / 1000 = theta0 + 1 / 1000 + INR j / 1000).
      { intros j. rewrite S_INR. lra. }
      assert (Hrec :
                exists (k : nat) (theta : R),
                  theta = theta0 + INR k / 1000 /\
                  Procedural.search (S f) d s l r v3 (theta0 + 1 / 1000)
                  = Some (Ret theta) /\
                  (forall j : nat, (j < k)%nat -> theta0 + INR j / 1000 < PI) /\
                  (forall j : nat, (2 <= j < k)%nat ->
                     ~ breaks_at d s l r v3 (theta0 + INR j / 1000)) /\
                  (((1 <= k)%nat /\ breaks_at d s l r v3 theta) \/ PI <= theta)).
      { destruct (IH (theta0 + 1 / 1000)) as (k' & theta & Hth & Hrun & Hlo & Hno & Hend).
        { rewrite S_INR in Hfuel. lra. }
        exists (S k'), theta.
        split; [rewrite Hstep; exact Hth|]. split; [exact Hrun|].
        split.
        { intros [|j] Hj; [simpl INR; lra|]. rewrite Hstep. apply Hlo. lia. }
        split.
        { intros [|j] Hj; [lia|]. rewrite Hstep. apply Hno. lia. }
        destruct Hend as [[_ Hb]|Hpi]; [left; split; [lia | exact Hb] | right; exact Hpi]. }
      destruct (Rlt_dec 0 (v_theta - v3)) as [H0|H0];
        [destruct (Rlt_dec (v_theta - v3) (1 / 1000)) as [H1|H1]|].
      * exists 1%nat, (theta0 + 1 / 1000).
        split; [simpl INR; lra|]. split; [reflexivity|].
        split; [intros j Hj; assert (j = 0%nat) as -> by lia; simpl INR; lra|].
        split; [intros j Hj; lia|].
        left. split; [lia|]. exists v_theta. auto.
      * destruct Hrec as (k & theta & Hth & Hrun & Hlo & Hno & Hend).
        exists k, theta. split; [exact Hth|]. split; [exact Hrun|].
        split; [exact Hlo|]. split; [|exact Hend].
        intros j Hj. destruct (Nat.eq_dec j 1%nat) as [->|Hne]; [|apply Hno; lia].
        simpl INR. intros Hb. apply Hhit in Hb. lra.
      * destruct Hrec as (k & theta & Hth & Hrun & Hlo & Hno & Hend).
        exists k, theta. split; [exact Hth|]. split; [exact Hrun|].
        split; [exact Hlo|]. split; [|exact Hend].
        intros j Hj. destruct (Nat.eq_dec j 1%nat) as [->|Hne]; [|apply Hno; lia].
        simpl INR. intros Hb. apply Hhit in Hb. lra.
    + exists 0%nat, theta0. simpl INR.
      split; [lra|]. split; [reflexivity|].
      split; [intros j Hj; lia|]. split; [intros j Hj; lia|]. right. lra.
Qed.
End Search.

(** Started at angle zero, the search loop of the procedural script ends
    within 4001 iterations for every input with [r <> 1] and [s <> 0].  It
    stops at a grid angle [k/1000] with [k >= 1]: the first one at which the
    volume exceeds [v3] by less than [0.001], or, when the loop condition
    fails first, the first one that is at least [PI]. *)
Theorem search_stops_at_first_overshoot (d s l r v3 : R) (fuel : nat) :
  r <> 1 -> s <> 0 -> (4000 < fuel)%nat ->
  exists (k : nat) (theta : R),
    (1 <= k)%nat /\
    theta = INR k / 1000 /\
    Procedural.search fuel d s l r v3 0 = Some (Ret theta) /\
    INR (k - 1) / 1000 < PI /\
    (forall j : nat, (1 <= j < k)%nat ->
                     ~ breaks_at d s l r v3 (INR j / 1000)) /\
    (breaks_at d s l r v3 theta \/ PI <= theta).
Proof.
  intros Hr Hs Hfuel.
  destruct fuel as [|f]; [lia|].
  assert (Hf : PI <= 0 + INR f / 1000).
  { pose proof PI_4. assert (INR 4000 <= INR f) by (apply le_INR; lia).
    assert (INR 4000 = 4000) by (rewrite INR_IZR_INZ; reflexivity). lra. }
  destruct (search_spec d s l r v3 Hr Hs f 0 Hf)
    as (k & theta & Hth & Hrun & Hlo & Hno & Hend).
  pose proof PI_RGT_0 as Hpi.
  assert (Hk : (1 <= k)%nat).
  { destruct k; [|lia]. simpl INR in Hth. destruct Hend as [[Hk _]|Hge]; [lia | lra]. }
  exists k, theta. split; [exact Hk|]. split; [lra|]. split; [exact Hrun|].
  split.
  { specialize (Hlo (k - 1)%nat ltac:(lia)). lra. }
  split.
  { intros j Hj Hb. apply (Hno j Hj).
    replace (0 + INR j / 1000) with (INR j / 1000) by lra. exact Hb. }
  destruct Hend as [[_ Hb]|Hge]; [left; exact Hb | right; exact Hge].
Qed.

Lemma search_stops_at_first_overshoot_witness :
  12 <> 1 /\ 1 / 10 <> 0 /\ (4000 < 4001)%nat /\
  exists theta : R,
    Procedural.search 4001 (1 / 10) (1 / 10) (3 / 20) 12 (1 / 1000) 0
    = Some (Ret theta) /\
    0 < theta.
Proof.
  assert (Hr : 12 <> 1) by lra.
  assert (Hs : 1 / 10 <> 0) by lra.
  assert (Hf : (4000 < 4001)%nat) by lia.
  split; [exact Hr|]. split; [exact Hs|]. split; [exact Hf|].
  destruct (search_stops_at_first_overshoot
              (1 / 10) (1 / 10) (3 / 20) 12 (1 / 1000) 4001 Hr Hs Hf)
    as (k & theta & Hk & Hth & Hrun & _).
  exists theta. split; [exact Hrun|].
  rewrite Hth. apply Rdiv_pos; [apply lt_0_INR; lia | lra].
Defined.

(** ** The curves of the procedural script *)

Lemma map_outcome_Ret {A B : Type} (f : A -> outcome B) (g : A -> B)
      (l : list A) :
  Forall (fun a => f a = Ret (g a)) l -> map_outcome f l = Ret (g <$> l).
Proof.
  induction 1 as [|a l Ha _ IH]; [reflexivity|].
  cbn [map_outcome]. rewrite Ha. cbn [bind]. rewrite IH. reflexivity.
Qed.

Lemma zip_with_fmap_same {A B C D : Type} (f : B -> C -> D) (g : A -> B)
      (h : A -> C) (l : list A) :
  zip_with f (g <$> l) (h <$> l) = (fun a => f (g a) (h a)) <$> l.
Proof. induction l as [|a l IH]; [reflexivity|]. cbn. rewrite IH. reflexivity. Qed.

Lemma volume_array_value (d s l r : R) (angles : list R) :
  r <> 1 -> s <> 0 ->
  Procedural.volume_array d s l r angles = Ret (crank_volume d s r <$> angles).
Proof.
  intros Hr Hs. unfold Procedural.volume_array.
  rewrite !py_div_ok by lra. cbn [bind].
  rewrite (map_outcome_Ret _ (fun th => sqrt ((2 / s) ^ 2 + (sin th) ^ 2))).
  - cbn [bind]. rewrite zip_with_fmap_same. reflexivity.
  - apply Forall_forall. intros th _.
    apply np_sqrt_ok, sum_of_squares_nonneg.
Qed.

Lemma crank_volume_tdc (d s r : R) :
  0 < s -> r <> 1 -> crank_volume d s r 0 = swept d s / (r - 1).
Proof.
  intros Hs Hr. unfold crank_volume, swept.
  assert (H2s : 0 <= 2 / s) by (apply Rlt_le, Rdiv_pos; lra).
  rewrite sin_0, cos_0.
  replace ((2 / s) ^ 2 + 0 ^ 2) with ((2 / s) ^ 2) by ring.
  rewrite sqrt_pow2 by assumption. field. split; lra.
Qed.

Lemma crank_volume_bdc (d s r : R) :
  0 < s -> r <> 1 ->
  crank_volume d s r PI = swept d s + swept d s / (r - 1).
Proof.
  intros Hs Hr. unfold crank_volume, swept.
  assert (H2s : 0 <= 2 / s) by (apply Rlt_le, Rdiv_pos; lra).
  rewrite sin_PI, cos_PI.
  replace ((2 / s) ^ 2 + 0 ^ 2) with ((2 / s) ^ 2) by ring.
  rewrite sqrt_pow2 by assumption. field. split; lra.
Qed.

Lemma crank_volume_monotone_in_cos (d s r x y : R) :
  0 < s -> s <= 2 -> cos y <= cos x ->
  crank_volume d s r x <= crank_volume d s r y.
Proof.
  intros Hs Hs2 Hcos. unfold crank_volume.
  assert (Ha : 1 <= 2 / s).
  { apply (Rmult_le_reg_r s); [lra|].
    unfold Rdiv. rewrite Rmult_assoc, Rinv_l by lra. lra. }
  pose proof (travel_monotone_in_cos (2 / s) Ha x y Hcos) as Hm.
  assert (Hk : 0 <= PI / 4 * d ^ 2 * s).
  { pose proof PI_RGT_0. pose proof (pow2_ge_0 d).
    apply Rmult_le_pos; [apply Rmult_le_pos|]; lra. }
  apply Rmult_le_compat_l; [exact Hk | lra].
Qed.

Lemma crank_volume_pos (d s r theta : R) :
  0 < d -> 0 < s -> s <= 2 -> 1 < r -> 0 < crank_volume d s r theta.
Proof.
  intros Hd Hs Hs2 Hr.
  assert (Hlow : crank_volume d s r 0 <= crank_volume d s r theta).
  { apply crank_volume_monotone_in_cos; try assumption.
    rewrite cos_0. apply COS_bound. }
  rewrite crank_volume_tdc in Hlow by lra.
  pose proof (swept_pos d s Hd Hs).
  assert (0 < swept d s / (r - 1)) by (apply Rdiv_pos; lra).
  lra.
Qed.

Lemma procedural_isentrope_value (pa va g : R) (V : list R) :
  0 < va -> Forall (fun x => 0 < x) V ->
  Procedural.isentrope pa va g V
  = Ret ((fun x => pa * Rpower va g / Rpower x g) <$> V).
Proof.
  intros Hva HV. unfold Procedural.isentrope.
  rewrite py_pow_pos by assumption. cbn [bind].
  rewrite (map_outcome_Ret _ (fun x => Rpower x g)).
  - cbn [bind].
    rewrite (map_outcome_Ret _ (fun xg => pa * Rpower va g / xg)).
    + rewrite <- list_fmap_compose. reflexivity.
    + apply Forall_fmap, Forall_forall. intros x _. cbn.
      apply np_div_ok. pose proof (Rpower_pos x g). lra.
  - eapply Forall_impl; [exact HV|]. intros x Hx. cbn in Hx.
    apply np_pow_pos. exact Hx.
Qed.

Lemma np_linspace_nonneg (a b : R) (n : Z) :
  (0 <= n)%Z -> np_linspace a b n = Ret (linspace_samples a b (Z.to_nat n)).
Proof.
  intros Hn. unfold np_linspace.
  assert (H : (n <? 0)%Z = false) by (apply Z.ltb_ge; exact Hn).
  rewrite H. reflexivity.
Qed.

Lemma Rpower_ratio (x y g : R) :
  0 < x -> 0 < y -> Rpower x g / Rpower y g = Rpower (x / y) g.
Proof.
  intros Hx Hy. unfold Rdiv.
  rewrite <- Rpower_Rinv_base by assumption.
  apply Rpower_mult_distr; [assumption | apply Rinv_0_lt_compat; assumption].
Qed.

Section ProceduralCurves.
Variables (d s l r g : R).
Hypothesis Hd : 0 < d.
Hypothesis Hs : 0 < s.
Hypothesis Hs2 : s <= 2.
Hypothesis Hr : 1 < r.

Lemma curve_value (pa va a b : R) :
  0 < va ->
  (let! angles := np_linspace a b 180 in
   let! V := Procedural.volume_array d s l r angles in
   let! P := Procedural.isentrope pa va g V in
   Ret (V, P))
  = let V := crank_volume d s r <$> linspace_samples a b (Z.to_nat 180) in
    Ret (V, (fun x => pa * Rpower va g / Rpower x g) <$> V).
Proof.
  intros Hva. rewrite np_linspace_nonneg by lia. cbn [bind].
  rewrite volume_array_value by lra. cbn [bind].
  rewrite procedural_isentrope_value.
  - reflexivity.
  - exact Hva.
  - apply Forall_fmap, Forall_forall. intros th _. cbn.
    apply crank_volume_pos; assumption.
Qed.

Lemma curve_lookup (pa va a b : R) (i : nat) :
  (i < Z.to_nat 180)%nat ->
  let V := crank_volume d s r <$> linspace_samples a b (Z.to_nat 180) in
  let th := spec_linear_sample a b 180 i in
  V !! i = Some (crank_volume d s r th) /\
  ((fun x => pa * Rpower va g / Rpower x g) <$> V) !! i
  = Some (pa * Rpower va g / Rpower (crank_volume d s r th) g).
Proof.
  intros Hi. cbn zeta.
  rewrite !list_lookup_fmap, lookup_spec_sample by (lia || assumption).
  split; reflexivity.
Qed.
End ProceduralCurves.

Lemma state_points_value (d s r p1 t1 g t3 : R) :
  0 < d -> 0 < s -> 1 < r -> 0 < t1 -> 0 < t3 ->
  Procedural.state_points d s r p1 t1 g t3 =
  let Vs := swept d s in
  let Vc := Vs / (r - 1) in
  let v1 := Vs + Vc in
  let p2 := p1 * Rpower r g in
  let t2 := t1 * Rpower r (g - 1) in
  let v3 := Vc * t3 / t2 in
  Ret (Procedural.mk_points Vs Vc v1 Vc v1 p2 t2 p2 v3
                            (p2 * Rpower (v3 / v1) g)).
Proof.
  intros Hd Hs Hr Ht1 Ht3. cbn zeta.
  pose proof (swept_pos d s Hd Hs) as Hsw.
  assert (Hc : 0 < swept d s / (r - 1)) by (apply Rdiv_pos; lra).
  pose proof (Rpower_pos r (g - 1)) as Hpw.
  assert (HT2 : 0 < t1 * Rpower r (g - 1)) by (apply Rmult_lt_0_compat; lra).
  assert (Hv3 : 0 < swept d s / (r - 1) * t3 / (t1 * Rpower r (g - 1))).
  { apply Rdiv_pos; [apply Rmult_lt_0_compat|]; assumption. }
  unfold Procedural.state_points. fold (swept d s).
  rewrite py_div_ok by lra. cbn [bind].
  rewrite !py_pow_pos by lra. cbn [bind].
  rewrite py_div_ok by lra. cbn [bind].
  rewrite py_div_ok by lra. cbn [bind].
  rewrite py_pow_pos by (apply Rdiv_pos; lra). cbn [bind].
  reflexivity.
Qed.

(** For a stroke of at most 2, the compression curve the procedural script
    plots has 180 points and runs exactly from the plotted state point 2,
    [(v2, p2)], to state point 1, [(v1, p1)]. *)
Theorem compression_curve_joins_states (d s l r p1 t1 t3 g : R) :
  0 < d -> 0 < s -> s <= 2 -> 1 < r -> 0 < t1 -> 0 < t3 ->
  exists pts V P,
    Procedural.state_points d s r p1 t1 g t3 = Ret pts /\
    Procedural.compression_curve d s l r p1 (Procedural.v1 pts) g = Ret (V, P) /\
    length V = 180%nat /\ length P = 180%nat /\
    V !! 0%nat = Some (Procedural.v2 pts) /\
    P !! 0%nat = Some (Procedural.p2 pts) /\
    V !! 179%nat = Some (Procedural.v1 pts) /\
    P !! 179%nat = Some p1.
Proof.
  intros Hd Hs Hs2 Hr Ht1 Ht3.
  pose proof (swept_pos d s Hd Hs) as Hsw.
  assert (Hc : 0 < swept d s / (r - 1)) by (apply Rdiv_pos; lra).
  assert (Hv1 : 0 < swept d s + swept d s / (r - 1)) by lra.
  eexists _, _, _.
  split; [apply state_points_value; assumption|].
  cbn [Procedural.v1 Procedural.v2 Procedural.p2].
  split.
  { unfold Procedural.compression_curve.
    apply (curve_value d s l r g Hd Hs Hs2 Hr); exact Hv1. }
  cbn zeta.
  split; [rewrite length_fmap, length_linspace_samples; reflexivity|].
  split; [rewrite !length_fmap, length_linspace_samples; reflexivity|].
  destruct (curve_lookup d s r g p1 (swept d s + swept d s / (r - 1)) 0 PI 0)
    as [HV0 HP0]; [lia|].
  destruct (curve_lookup d s r g p1 (swept d s + swept d s / (r - 1)) 0 PI 179)
    as [HV1 HP1]; [lia|].
  cbn zeta in HV0, HP0, HV1, HP1.
  rewrite spec_sample_first in HV0, HP0.
  change 179%nat with (Z.to_nat 180 - 1)%nat in HV1, HP1 at 2.
  rewrite spec_sample_last in HV1, HP1 by lia.
  rewrite crank_volume_tdc in HV0, HP0 by lra.
  rewrite crank_volume_bdc in HV1, HP1 by lra.
  split; [exact HV0|]. split; [|split; [exact HV1|]].
  - rewrite HP0. f_equal. unfold Rdiv at 1. rewrite Rmult_assoc.
    fold (Rdiv (Rpower (swept d s + swept d s / (r - 1)) g)
               (Rpower (swept d s / (r - 1)) g)).
    rewrite Rpower_ratio by assumption.
    f_equal. f_equal. field. lra.
  - rewrite HP1. f_equal. field.
    pose proof (Rpower_pos (swept d s + swept d s / (r - 1)) g). lra.
Qed.

Lemma compression_curve_joins_states_witness :
  0 < 1 / 10 /\ 0 < 1 / 10 /\ 1 / 10 <= 2 /\ 1 < 12 /\ 0 < 300 /\ 0 < 2500 /\
  exists pts V P,
    Procedural.state_points (1 / 10) (1 / 10) 12 (1013 / 10) 300 (7 / 5) 2500
    = Ret pts /\
    Procedural.compression_curve (1 / 10) (1 / 10) (3 / 20) 12 (1013 / 10)
                                 (Procedural.v1 pts) (7 / 5) = Ret (V, P) /\
    P !! 0%nat = Some (Procedural.p2 pts) /\
    P !! 179%nat = Some (1013 / 10).
Proof.
  assert (Hd : 0 < 1 / 10) by lra.
  assert (Hs2 : 1 / 10 <= 2) by lra.
  assert (Hr : 1 < 12) by lra.
  assert (H1 : 0 < 300) by lra.
  assert (H3 : 0 < 2500) by lra.
  split; [exact Hd|]. split; [exact Hd|]. split; [exact Hs2|].
  split; [exact Hr|]. split; [exact H1|]. split; [exact H3|].
  destruct (compression_curve_joins_states
              (1 / 10) (1 / 10) (3 / 20) 12 (1013 / 10) 300 2500 (7 / 5)
              Hd Hd Hs2 Hr H1 H3)
    as (pts & V & P & Hp & Hcurve & _ & _ & _ & P0 & _ & P1).
  exists pts, V, P. repeat split; assumption.
Defined.

(** When the search has stopped at an angle where the volume overshoots
    [v3], the expansion curve the script plots starts exactly at state
    point 4 but ends short of state point 3: its last volume lies strictly
    between [v3] and [v3 + 0.001], and its last pressure is strictly below
    [p3]. *)
Theorem expansion_curve_stops_short (d s l r p3 v3 g theta : R) :
  0 < d -> 0 < s -> s <= 2 -> 1 < r ->
  0 < p3 -> 0 < v3 -> 0 < g ->
  breaks_at d s l r v3 theta ->
  exists V P Vend Pend,
    Procedural.expansion_curve d s l r p3 v3 g theta = Ret (V, P) /\
    length V = 180%nat /\ length P = 180%nat /\
    V !! 0%nat = Some (total_volume (built d s l r)) /\
    P !! 0%nat = Some (p3 * Rpower (v3 / total_volume (built d s l r)) g) /\
    V !! 179%nat = Some Vend /\
    P !! 179%nat = Some Pend /\
    v3 < Vend < v3 + 1 / 1000 /\
    Pend < p3.
Proof.
  intros Hd Hs Hs2 Hr Hp3 Hv3 Hg (v_theta & Hvol & Hlo & Hhi).
  rewrite volume_value in Hvol by lra.
  fold (crank_volume d s r theta) in Hvol. injection Hvol as Hvol.
  pose proof (swept_pos d s Hd Hs) as Hsw.
  assert (Hc : 0 < swept d s / (r - 1)) by (apply Rdiv_pos; lra).
  assert (Hv1 : 0 < swept d s + swept d s / (r - 1)) by lra.
  eexists _, _, _, _.
  split.
  { unfold Procedural.expansion_curve.
    apply (curve_value d s l r g Hd Hs Hs2 Hr); exact Hv3. }
  cbn zeta.
  split; [rewrite length_fmap, length_linspace_samples; reflexivity|].
  split; [rewrite !length_fmap, length_linspace_samples; reflexivity|].
  destruct (curve_lookup d s r g p3 v3 PI theta 0) as [HV0 HP0]; [lia|].
  destruct (curve_lookup d s r g p3 v3 PI theta 179) as [HV1 HP1]; [lia|].
  cbn zeta in HV0, HP0, HV1, HP1.
  rewrite spec_sample_first in HV0, HP0.
  change 179%nat with (Z.to_nat 180 - 1)%nat in HV1, HP1 at 2.
  rewrite spec_sample_last in HV1, HP1 by lia.
  rewrite crank_volume_bdc in HV0, HP0 by lra.
  cbn [total_volume built].
  split; [exact HV0|]. split.
  { rewrite HP0. f_equal. unfold Rdiv at 1. rewrite Rmult_assoc.
    fold (Rdiv (Rpower v3 g) (Rpower (swept d s + swept d s / (r - 1)) g)).
    rewrite Rpower_ratio by assumption. reflexivity. }
  split; [exact HV1|]. split; [exact HP1|].
  rewrite Hvol. split; [lra|].
  assert (Hvt : 0 < v_theta) by lra.
  unfold Rdiv. rewrite Rmult_assoc.
  fold (Rdiv (Rpower v3 g) (Rpower v_theta g)).
  rewrite Rpower_ratio by assumption.
  assert (Hq : 0 < v3 / v_theta < 1).
  { split; [apply Rdiv_pos; assumption|].
    apply (Rmult_lt_reg_r v_theta); [assumption|].
    unfold Rdiv. rewrite Rmult_assoc, Rinv_l by lra. lra. }
  pose proof (Rpower_lt_1 (v3 / v_theta) g Hq Hg). nra.
Qed.

Lemma expansion_curve_stops_short_witness :
  0 < 1 /\ 0 < 1 /\ 1 <= 2 /\ 1 < 2 /\ 0 < 1 /\ 0 < PI / 2 - 1 / 2000 /\
  0 < 7 / 5 /\
  breaks_at 1 1 1 2 (PI / 2 - 1 / 2000) PI /\
  exists V P Pend,
    Procedural.expansion_curve 1 1 1 2 1 (PI / 2 - 1 / 2000) (7 / 5) PI
    = Ret (V, P) /\
    P !! 179%nat = Some Pend /\ Pend < 1.
Proof.
  pose proof PI_RGT_0 as Hpi. pose proof PI2_1 as Hpi2.
  assert (H1 : 0 < 1) by lra.
  assert (Hs2 : 1 <= 2) by lra.
  assert (Hr : 1 < 2) by lra.
  assert (Hv3 : 0 < PI / 2 - 1 / 2000) by lra.
  assert (Hg : 0 < 7 / 5) by lra.
  assert (Hb : breaks_at 1 1 1 2 (PI / 2 - 1 / 2000) PI).
  { exists (PI / 2). split.
    - rewrite volume_value by lra. fold (crank_volume 1 1 2 PI).
      rewrite crank_volume_bdc by lra. f_equal. unfold swept. field.
    - lra. }
  split; [exact H1|]. split; [exact H1|]. split; [exact Hs2|].
  split; [exact Hr|]. split; [exact H1|]. split; [exact Hv3|].
  split; [exact Hg|]. split; [exact Hb|].
  destruct (expansion_curve_stops_short 1 1 1 2 1 (PI / 2 - 1 / 2000) (7 / 5) PI
              H1 H1 Hs2 Hr H1 Hv3 Hg Hb)
    as (V & P & Vend & Pend & Hcurve & _ & _ & _ & _ & _ & HP & _ & Hlt).
  exists V, P, Pend. repeat split; assumption.
Defined.

(** ** Zero divisions in the cycle evaluation *)

(** On an instance with a positive compression ratio, [ideal_diesel_cycle]
    raises [ZeroDivisionError] when the intake temperature is zero or when
    the instance has zero total volume, as one built with a zero bore or a
    zero stroke has. *)
Theorem ideal_diesel_cycle_zero_division (self : t) (p1 T1 T3 g : R) :
  0 < compression_ratio self ->
  T1 = 0 \/ total_volume self = 0 ->
  ideal_diesel_cycle self p1 T1 T3 g = Raise ZeroDivisionError.
Proof.
  intros Hr Hzero. unfold ideal_diesel_cycle.
  rewrite !py_pow_pos by assumption. cbn [bind].
  pose proof (Rpower_pos (compression_ratio self) (g - 1)) as Hpw.
  destruct (Req_dec_T T1 0) as [HT1|HT1].
  - subst T1. rewrite Rmult_0_l, py_div_zero. reflexivity.
  - destruct Hzero as [H|Hv]; [contradiction|].
    rewrite py_div_ok by (apply Rmult_integral_contrapositive; split; lra).
    cbn [bind]. rewrite Hv, py_div_zero. reflexivity.
Qed.

Lemma ideal_diesel_cycle_zero_division_witness :
  0 < compression_ratio (built 0 1 1 2) /\
  (300 = 0 \/ total_volume (built 0 1 1 2) = 0) /\
  init 0 1 1 2 = Ret (built 0 1 1 2) /\
  ideal_diesel_cycle (built 0 1 1 2) 1 300 2200 (7 / 5)
  = Raise ZeroDivisionError.
Proof.
  assert (Hr : 0 < compression_ratio (built 0 1 1 2)) by (simpl; lra).
  assert (Hz : 300 = 0 \/ total_volume (built 0 1 1 2) = 0).
  { right. simpl. unfold swept. field. }
  split; [exact Hr|]. split; [exact Hz|].
  split.
  { rewrite init_total. destruct (Req_dec_T 2 1); [lra | reflexivity]. }
  exact (ideal_diesel_cycle_zero_division (built 0 1 1 2) 1 300 2200 (7 / 5)
           Hr Hz).
Defined.
